(** * term.c: a serial terminal program

    A shallow embedding of [term.c] and the properties of its relay loops,
    its escape sub-commands, its serial-line set-up and its shutdown.

    The program is two processes.  The parent reads the keyboard one byte at
    a time and writes to the serial line; the child, made by [fork], reads
    blocks from the serial line and writes them to the user's terminal and
    to the log file.  The parent stops and restarts the child with the
    signals SIGUSR1 and SIGUSR2 and ends it with SIGTERM.

    Bytes are integers ([Z]); [c &= 0x7F] is [Z.land c 127].  Flag words of
    [struct termios] are integers too, with [|=] as [Z.lor] and [&= ~m] as
    [Z.land _ (Z.lnot m)].  System calls append to a trace kept in the
    state of the world, next to the device settings they change. *)

From Stdlib Require Import ZArith List String Ascii Bool Lia.
Import ListNotations.
Open Scope Z_scope.

(** ** Bytes and strings *)

Definition byte_of_ascii (a : ascii) : Z := Z.of_N (N_of_ascii a).

(** The bytes of a string literal, without a terminating NUL. *)
Definition bytes (s : string) : list Z :=
  map byte_of_ascii (list_ascii_of_string s).

Definition LF : string := String "010"%char EmptyString.
Definition CR : string := String "013"%char EmptyString.

(** [c &= 0x7F] *)
Definition mask7 (c : Z) : Z := Z.land c 127.

(** [#define BUFSIZE (30)] *)
Definition BUFSIZE : Z := 30.

(** [#define PROTO_RX 1] and the like *)
Definition PROTO_RX : Z := 1.
Definition PROTO_RY : Z := 2.
Definition PROTO_RZ : Z := 3.
Definition PROTO_TXT : Z := 4.

(** [#define PROTO_CHAR '\32'], octal 32: Control-Z *)
Definition PROTO_CHAR : Z := 26.

(** A C string stops at its first NUL: what [%s] and [strlen] see of a
    buffer. *)
Fixpoint cstring (buf : list Z) : list Z :=
  match buf with
  | [] => []
  | b :: r => if b =? 0 then [] else b :: cstring r
  end.

(** ** struct termios and the constants of <termios.h>

    The header is the system's, not the program's: its constants are a
    parameter of the development.  [linux_bits] below gives the values of
    Linux (asm-generic/termbits.h), used to run the model on examples. *)

Record termbits := {
  ECHO : Z; ICANON : Z; ISIG : Z;          (* c_lflag *)
  OPOST : Z;                               (* c_oflag *)
  CLOCAL : Z; CSIZE : Z; CS7 : Z; CS8 : Z; (* c_cflag *)
  CSTOPB : Z; PARENB : Z; PARODD : Z;
  VMIN : nat; VTIME : nat;                 (* indices in c_cc *)
  O_NDELAY : Z                             (* <fcntl.h> *)
}.

Definition linux_bits : termbits := {|
  ECHO := 8; ICANON := 2; ISIG := 1;
  OPOST := 1;
  CLOCAL := 2048; CSIZE := 48; CS7 := 32; CS8 := 48;
  CSTOPB := 64; PARENB := 256; PARODD := 512;
  VMIN := 6; VTIME := 5;
  O_NDELAY := 2048
|}.

(** The speeds [cfsetispeed] and [cfsetospeed] store are kept in two fields
    of their own, as POSIX leaves their place in the structure open. *)
Record termios := {
  c_iflag : Z;
  c_oflag : Z;
  c_cflag : Z;
  c_lflag : Z;
  c_cc : list Z;
  c_ispeed : Z;
  c_ospeed : Z
}.

(** [a[i] = v] on the array [c_cc]; the indices used are below NCCS. *)
Fixpoint array_set (i : nat) (v : Z) (a : list Z) : list Z :=
  match a, i with
  | [], _ => []
  | _ :: r, O => v :: r
  | x :: r, S j => x :: array_set j v r
  end.

Definition set_iflag (v : Z) (t : termios) : termios :=
  {| c_iflag := v; c_oflag := c_oflag t; c_cflag := c_cflag t;
     c_lflag := c_lflag t; c_cc := c_cc t;
     c_ispeed := c_ispeed t; c_ospeed := c_ospeed t |}.
Definition set_oflag (v : Z) (t : termios) : termios :=
  {| c_iflag := c_iflag t; c_oflag := v; c_cflag := c_cflag t;
     c_lflag := c_lflag t; c_cc := c_cc t;
     c_ispeed := c_ispeed t; c_ospeed := c_ospeed t |}.
Definition set_cflag (v : Z) (t : termios) : termios :=
  {| c_iflag := c_iflag t; c_oflag := c_oflag t; c_cflag := v;
     c_lflag := c_lflag t; c_cc := c_cc t;
     c_ispeed := c_ispeed t; c_ospeed := c_ospeed t |}.
Definition set_lflag (v : Z) (t : termios) : termios :=
  {| c_iflag := c_iflag t; c_oflag := c_oflag t; c_cflag := c_cflag t;
     c_lflag := v; c_cc := c_cc t;
     c_ispeed := c_ispeed t; c_ospeed := c_ospeed t |}.
Definition set_cc (i : nat) (v : Z) (t : termios) : termios :=
  {| c_iflag := c_iflag t; c_oflag := c_oflag t; c_cflag := c_cflag t;
     c_lflag := c_lflag t; c_cc := array_set i v (c_cc t);
     c_ispeed := c_ispeed t; c_ospeed := c_ospeed t |}.
Definition cfsetispeed (v : Z) (t : termios) : termios :=
  {| c_iflag := c_iflag t; c_oflag := c_oflag t; c_cflag := c_cflag t;
     c_lflag := c_lflag t; c_cc := c_cc t;
     c_ispeed := v; c_ospeed := c_ospeed t |}.
Definition cfsetospeed (v : Z) (t : termios) : termios :=
  {| c_iflag := c_iflag t; c_oflag := c_oflag t; c_cflag := c_cflag t;
     c_lflag := c_lflag t; c_cc := c_cc t;
     c_ispeed := c_ispeed t; c_ospeed := v |}.

(** [x |= m] and [x &= ~m] *)
Definition bis (x m : Z) : Z := Z.lor x m.
Definition bic (x m : Z) : Z := Z.land x (Z.lnot m).

(** ** The program's global variables *)

(** Set by the option loop of [main] and read-only afterwards. *)
Record config := {
  baud : Z;           (* -s, a B... constant; B9600 by default *)
  parodd : bool;      (* -o *)
  pareven : bool;     (* -e *)
  seven_bits : bool;  (* -7 *)
  raw_kbd : bool;     (* -r *)
  proto : Z           (* -p; PROTO_RZ by default *)
}.

(** ** Processes, system calls and the state of the world *)

Inductive proc := Parent | Child.
Inductive fd := TTYFD | RS232.
Inductive sig := SIGUSR1 | SIGUSR2 | SIGTERM.

(** Which of [static struct termios ntty, otty, ext] a call was handed. *)
Inductive tvar := Otty | Ntty | Ext.

Inductive call :=
| Write_ (f : fd) (bs : list Z)
| Kill (s : sig)
| Tcsetattr (f : fd) (v : tvar) (t : termios)
| Fcntl_setfl (f : fd) (fl : Z)
| System (cmd : list Z)
| Fwrite (bs : list Z)
| Fclose
| Perror (tag : string)
| Stderr (msg : list Z)
| Exit_ (status : Z).

Definition event : Type := proc * call.

(** The child: in its read loop, inside [pause()] in the SIGUSR1 handler,
    or gone with an exit status. *)
Inductive cstate := CRunning | CPaused | CExited (status : Z).

Record world := {
  trace : list event;         (* calls made so far, oldest first *)
  tty_attr : termios;         (* settings of the user's terminal *)
  line_attr : termios;        (* settings of the serial line *)
  line_fl : Z;                (* file status flags of the serial line *)
  otty : termios;             (* the global [otty] *)
  logfp : option (list Z);    (* NULL, or the bytes written to the log *)
  log_closed : bool;          (* [fclose(logfp)] was called *)
  child : cstate
}.

Definition set_trace (v : list event) (w : world) : world :=
  {| trace := v; tty_attr := tty_attr w; line_attr := line_attr w;
     line_fl := line_fl w; otty := otty w; logfp := logfp w;
     log_closed := log_closed w; child := child w |}.
Definition set_tty_attr (v : termios) (w : world) : world :=
  {| trace := trace w; tty_attr := v; line_attr := line_attr w;
     line_fl := line_fl w; otty := otty w; logfp := logfp w;
     log_closed := log_closed w; child := child w |}.
Definition set_line_attr (v : termios) (w : world) : world :=
  {| trace := trace w; tty_attr := tty_attr w; line_attr := v;
     line_fl := line_fl w; otty := otty w; logfp := logfp w;
     log_closed := log_closed w; child := child w |}.
Definition set_line_fl (v : Z) (w : world) : world :=
  {| trace := trace w; tty_attr := tty_attr w; line_attr := line_attr w;
     line_fl := v; otty := otty w; logfp := logfp w;
     log_closed := log_closed w; child := child w |}.
Definition set_otty (v : termios) (w : world) : world :=
  {| trace := trace w; tty_attr := tty_attr w; line_attr := line_attr w;
     line_fl := line_fl w; otty := v; logfp := logfp w;
     log_closed := log_closed w; child := child w |}.
Definition set_logfp (v : option (list Z)) (w : world) : world :=
  {| trace := trace w; tty_attr := tty_attr w; line_attr := line_attr w;
     line_fl := line_fl w; otty := otty w; logfp := v;
     log_closed := log_closed w; child := child w |}.
Definition set_log_closed (v : bool) (w : world) : world :=
  {| trace := trace w; tty_attr := tty_attr w; line_attr := line_attr w;
     line_fl := line_fl w; otty := otty w; logfp := logfp w;
     log_closed := v; child := child w |}.
Definition set_child (v : cstate) (w : world) : world :=
  {| trace := trace w; tty_attr := tty_attr w; line_attr := line_attr w;
     line_fl := line_fl w; otty := otty w; logfp := logfp w;
     log_closed := log_closed w; child := v |}.

(** A call is recorded at the end of the trace. *)
Definition emit (e : event) (w : world) : world :=
  set_trace (trace w ++ [e]) w.

(** What [read(ttyfd, &c, 1)] returns: 1 and a byte, 0, or -1. *)
Inductive rd := RByte (b : Z) | REof | RErr.

(** What the child's [read(rs232, buf, sizeof(buf))] returns: a count
    [x >= 0] and that many bytes, -1 with [errno == EINTR], or -1 with
    another error. *)
Inductive srd := SBlock (bs : list Z) | SEintr | SErr.

(** How a piece of the parent's code ends: it returns, with the keyboard
    input it has not read; it calls [exit]; it waits in [read] for input
    past the end of the given list; it uses a [char c] that was never
    assigned or stores in front of a buffer; or the loop counter of the
    model ran out. *)
Inductive outcome (A : Type) :=
| Ret (a : A) (rest : list rd) (w : world)
| Exited (status : Z) (w : world)
| Blocked (w : world)
| Undef (w : world)
| NoFuel.
Arguments Ret {A} a rest w.
Arguments Exited {A} status w.
Arguments Blocked {A} w.
Arguments Undef {A} w.
Arguments NoFuel {A}.

(** The parent's code runs on the unread keyboard input and the world. *)
Definition M (A : Type) : Type := list rd -> world -> outcome A.

Definition ret {A} (a : A) : M A := fun inp w => Ret a inp w.

Definition bind {A B} (m : M A) (k : A -> M B) : M B :=
  fun inp w =>
    match m inp w with
    | Ret a rest w' => k a rest w'
    | Exited s w' => Exited s w'
    | Blocked w' => Blocked w'
    | Undef w' => Undef w'
    | NoFuel => NoFuel
    end.

Declare Scope term_scope.
Delimit Scope term_scope with term.
Notation "x <- m ;; k" := (bind m (fun x => k))
  (at level 61, m at next level, right associativity) : term_scope.
Notation "m ;; k" := (bind m (fun _ => k))
  (at level 61, right associativity) : term_scope.
Open Scope term_scope.

(** A step that only changes the world. *)
Definition act (f : world -> world) : M unit :=
  fun inp w => Ret tt inp (f w).

(** The world an outcome ends in. *)
Definition final {A} (o : outcome A) : option world :=
  match o with
  | Ret _ _ w | Exited _ w | Blocked w | Undef w => Some w
  | NoFuel => None
  end.

(** The bytes written to a file descriptor, in order, by either process. *)
Fixpoint written (f : fd) (tr : list event) : list Z :=
  match tr with
  | [] => []
  | (_, Write_ TTYFD bs) :: r =>
      match f with TTYFD => bs ++ written f r | RS232 => written f r end
  | (_, Write_ RS232 bs) :: r =>
      match f with RS232 => bs ++ written f r | TTYFD => written f r end
  | _ :: r => written f r
  end.

Definition is_restore (e : event) : bool :=
  match e with (_, Tcsetattr TTYFD Otty _) => true | _ => false end.
Definition is_system (e : event) : bool :=
  match e with (_, System _) => true | _ => false end.
Definition is_kill (s : sig) (e : event) : bool :=
  match e, s with
  | (_, Kill SIGUSR1), SIGUSR1 | (_, Kill SIGUSR2), SIGUSR2
  | (_, Kill SIGTERM), SIGTERM => true
  | _, _ => false
  end.

(** How often a kind of call occurs in a trace. *)
Definition count (p : event -> bool) (tr : list event) : nat :=
  List.length (filter p tr).

(** ** The program *)

Section Term.

(** The constants of the system headers. *)
Variable tb : termbits.

(** What an external transfer program, run by [system], leaves of the
    settings of the serial line: the program is free to change them. *)
Variable external : list Z -> termios -> termios.

(** The options the program was started with. *)
Variable cfg : config.

(** *** System calls *)

Definition sys_write (p : proc) (f : fd) (bs : list Z) (w : world) : world :=
  emit (p, Write_ f bs) w.

(** [tcsetattr(fd, TCSAFLUSH, &v)] *)
Definition tcsetattr (f : fd) (v : tvar) (t : termios) (w : world) : world :=
  let w := emit (Parent, Tcsetattr f v t) w in
  match f with
  | TTYFD => set_tty_attr t w
  | RS232 => set_line_attr t w
  end.

(** [do_term()], the child's handler of SIGTERM *)
Definition do_term (w : world) : world :=
  let w := match logfp w with
           | Some _ => set_log_closed true (emit (Child, Fclose) w)
           | None => w
           end in
  set_child (CExited 0) (emit (Child, Exit_ 0) w).

(** What a signal does to the child.  [usr1] waits in [pause()] until
    another handler has run; [usr2] does nothing but let that [pause()]
    return; a child that is gone receives nothing.  The signal is taken
    to arrive at once. *)
Definition deliver (s : sig) (w : world) : world :=
  match child w with
  | CExited _ => w
  | CRunning =>
      match s with
      | SIGUSR1 => set_child CPaused w
      | SIGUSR2 => w
      | SIGTERM => do_term w
      end
  | CPaused =>
      match s with
      | SIGUSR1 => w
      | SIGUSR2 => set_child CRunning w
      | SIGTERM => do_term w
      end
  end.

(** [kill(child, s)]: the parent never looks at what it returns. *)
Definition kill (s : sig) (w : world) : world :=
  deliver s (emit (Parent, Kill s) w).

(** [system(cmd)] *)
Definition system (cmd : list Z) (w : world) : world :=
  set_line_attr (external cmd (line_attr w)) (emit (Parent, System cmd) w).

(** *** setup_serial *)

(** The changes [setup_serial] makes to [ext] between [tcgetattr] and
    [tcsetattr]. *)
Definition serial_mode (ext : termios) : termios :=
  let ext := set_lflag (bic (c_lflag ext)
               (Z.lor (Z.lor (ECHO tb) (ICANON tb)) (ISIG tb))) ext in
  let ext := set_cflag (bis (c_cflag ext) (CLOCAL tb)) ext in
  let ext := set_cflag (bic (c_cflag ext) (CSIZE tb)) ext in
  let ext := if seven_bits cfg
             then set_cflag (bis (c_cflag ext) (CS7 tb)) ext
             else set_cflag (bis (c_cflag ext) (CS8 tb)) ext in
  let ext := set_cflag (bic (c_cflag ext) (CSTOPB tb)) ext in
  let ext := if negb (parodd cfg) && negb (pareven cfg)
             then set_cflag (bic (c_cflag ext) (PARENB tb)) ext
             else if parodd cfg
             then set_cflag (bis (c_cflag ext) (PARODD tb)) ext
             else ext in
  let ext := set_oflag (bic (c_oflag ext) (OPOST tb)) ext in
  let ext := set_iflag 0 ext in
  let ext := set_cc (VMIN tb) BUFSIZE ext in
  let ext := set_cc (VTIME tb) 1 ext in
  let ext := cfsetispeed (baud cfg) ext in
  cfsetospeed (baud cfg) ext.

Definition setup_serial (w : world) : world :=
  let ext := serial_mode (line_attr w) in
  let w := tcsetattr RS232 Ext ext w in
  let fl := bic (line_fl w) (O_NDELAY tb) in
  set_line_fl fl (emit (Parent, Fcntl_setfl RS232 fl) w).

(** *** The child: serial line to user *)

(** One turn of the child's [for (;;)] loop, on what its [read] returned. *)
Definition downlink_body (r : srd) (w : world) : world :=
  match r with
  | SEintr => w
  | SErr =>
      set_child (CExited 1)
        (emit (Child, Exit_ 1) (emit (Child, Perror "child") w))
  | SBlock bs =>
      let buf := map mask7 bs in
      let w := sys_write Child TTYFD buf w in
      match logfp w with
      | Some l => set_logfp (Some (l ++ buf)) (emit (Child, Fwrite buf) w)
      | None => w
      end
  end.

(** The child's loop on the results of its successive reads.  It reads
    only while it is neither inside [pause()] nor gone. *)
Fixpoint downlink (rs : list srd) (w : world) : world :=
  match rs with
  | [] => w
  | r :: rs' =>
      match child w with
      | CRunning => downlink rs' (downlink_body r w)
      | _ => w
      end
  end.

(** *** done *)

Definition done : M unit :=
  fun _ w =>
    let w := kill SIGTERM w in
    let w := tcsetattr TTYFD Otty (otty w) w in
    let w := sys_write Parent TTYFD (bytes ("Exiting" ++ LF)) w in
    Exited 0 (emit (Parent, Exit_ 0) w).

(** *** prompt_read *)

(** The [do ... while] loop of [prompt_read].  [c] is the variable [c],
    not assigned before the first successful read; [stored] is what has
    been put in the buffer so far, [len] the room left. *)
Fixpoint prompt_loop (inp : list rd) (c : option Z) (stored : list Z)
         (len : Z) (w : world) : outcome (list Z) :=
  match inp with
  | [] => Blocked w
  | r :: rest =>
      match r with
      | REof => prompt_loop rest c stored len w
      | _ =>
          match (match r with RByte b => Some b | _ => c end) with
          | None => Undef w
          | Some v =>
              let c := mask7 v in
              let w := sys_write Parent TTYFD [c] w in
              let stored' := if len =? 0 then stored else stored ++ [c] in
              let len' := if len =? 0 then len else len - 1 in
              if negb (c =? 10) && negb (c =? 13)
              then prompt_loop rest (Some c) stored' len' w
              else
                (* buf -= 1; *buf = '\0'; *)
                match stored' with
                | [] => Undef w
                | _ => Ret (removelast stored') rest w
                end
          end
      end
  end.

(** [prompt_read(ttyfd, prompt, buf, len)]; the result is the content of
    [buf] in front of the NUL stored last. *)
Definition prompt_read (prompt : string) (len : Z) : M (list Z) :=
  fun inp w =>
    let len := len - 1 in
    let w := sys_write Parent TTYFD (bytes prompt) w in
    prompt_loop inp None [] len w.

(** *** rx_xfer and tx_xfer *)

Definition rx_xfer : M unit :=
  if proto cfg =? PROTO_RX then
    fname <- prompt_read "Receive file: " 60 ;;
    act (system (bytes "lrx " ++ cstring fname))
  else if proto cfg =? PROTO_RY then
    act (system (bytes "lry"))
  else if proto cfg =? PROTO_RZ then
    act (system (bytes "lrz"))
  else
    act (emit (Parent, Stderr
           (bytes ("Receive not supported with this protocol." ++ CR ++ LF)))).

(** [sprintf(buf, "%s %s", buf, fname)] is taken to give the command, a
    blank and the file name. *)
Definition tx_xfer : M unit :=
  fname <- prompt_read "Send file: " 60 ;;
  let run (buf : string) :=
    act (system (bytes buf ++ bytes " " ++ cstring fname)) in
  if proto cfg =? PROTO_RX then run "lsx"%string
  else if proto cfg =? PROTO_RY then run "lsy"%string
  else if proto cfg =? PROTO_RZ then run "lsz"%string
  else if proto cfg =? PROTO_TXT then run "cat"%string
  else
    act (emit (Parent, Stderr
           (bytes ("Transmit not supported with this protocol." ++ CR ++ LF)))).

(** *** proto_xfer *)

Definition helpmsg : list Z :=
  bytes ("Options are: <r>eceive, <s>end, <q>uit" ++ CR ++ LF).

Definition chr (a : ascii) : Z := byte_of_ascii a.

(** The first loop of [proto_xfer], [while (read(ttyfd, &c, sizeof(c))
    == 0) ;], is the recursion on a read that returned 0.  A read that
    failed leaves [c] without a value. *)
Fixpoint proto_xfer (inp : list rd) (w : world) {struct inp}
  : outcome unit :=
  match inp with
  | [] => Blocked w
  | REof :: rest => proto_xfer rest w
  | RErr :: _ => Undef w
  | RByte b :: rest =>
      let c := mask7 b in
      if c =? PROTO_CHAR then
        Ret tt rest (sys_write Parent RS232 [c] w)
      else
        ((if (c =? chr "q") || (c =? chr "Q") then done else ret tt) ;;
         let c2 := c in
         if (c2 =? chr "r") || (c2 =? chr "R") then
           rx_xfer ;; act setup_serial
         else if (c2 =? chr "s") || (c2 =? chr "S") ||
                 (c2 =? chr "t") || (c2 =? chr "T") then
           tx_xfer ;; act setup_serial
         else
           act (sys_write Parent TTYFD helpmsg)) rest w
  end.

(** *** main *)

(** The parent's [while ((x = read(ttyfd, &c, 1)) == 1)] loop and what
    follows it.  [fuel] bounds the number of turns. *)
Fixpoint uplink (fuel : nat) : M unit :=
  fun inp w =>
    match fuel with
    | O => NoFuel
    | S fuel =>
        match inp with
        | [] => Blocked w
        | RByte b :: rest =>
            let c := mask7 b in
            if c =? PROTO_CHAR then
              (act (kill SIGUSR1) ;; proto_xfer ;;
               act (kill SIGUSR2) ;; uplink fuel) rest w
            else
              let c := if negb (raw_kbd cfg) && (c =? 10) then 13 else c in
              (act (sys_write Parent RS232 [c]) ;; uplink fuel) rest w
        | REof :: rest => done rest w
        | RErr :: rest => (act (emit (Parent, Perror "parent")) ;; done) rest w
        end
    end.

(** Every turn reads at least one result, so this many turns are enough. *)
Definition main_loop : M unit :=
  fun inp w => uplink (S (List.length inp)) inp w.

(** The terminal's raw mode: the changes [main] makes to [ntty]. *)
Definition raw_mode (ntty : termios) : termios :=
  let ntty := set_lflag (bic (c_lflag ntty)
                (Z.lor (Z.lor (ECHO tb) (ICANON tb)) (ISIG tb))) ntty in
  let ntty := set_oflag (bic (c_oflag ntty) (OPOST tb)) ntty in
  let ntty := set_iflag 0 ntty in
  let ntty := set_cc (VMIN tb) 1 ntty in
  set_cc (VTIME tb) 0 ntty.

Definition boot_msg : list Z := bytes ("Term ready." ++ CR ++ LF).

(** [main] from [tcgetattr(ttyfd, &otty)] to the [fork]; [forked] tells
    whether [fork] succeeded.  The child writes its message first. *)
Definition startup (forked : bool) : M unit :=
  fun inp w =>
    let w := set_otty (tty_attr w) w in
    let ntty := raw_mode (otty w) in
    let w := tcsetattr TTYFD Ntty ntty w in
    let w := setup_serial w in
    if forked then
      Ret tt inp (sys_write Child TTYFD boot_msg (set_child CRunning w))
    else
      Exited 1 (emit (Parent, Exit_ 1) (emit (Parent, Perror "child fork") w)).

(** [main], after the options are read and the devices opened. *)
Definition term_main (forked : bool) : M unit :=
  startup forked ;; main_loop.

End Term.

(** ** The options of main

    [getopt] is the library's: the option loop is run on what its
    successive calls return, an option letter and its argument ([optarg],
    empty for the letters that take none; [?] for a letter [getopt] does
    not know).  The speeds B300 ... B115200 of <termios.h> are a parameter,
    [linux_speeds] their values on Linux; whether [fopen] can open a log
    file for writing is a parameter too. *)

Record speeds := {
  B300 : Z; B1200 : Z; B2400 : Z; B9600 : Z;
  B19200 : Z; B38400 : Z; B115200 : Z
}.

Definition linux_speeds : speeds := {|
  B300 := 7; B1200 := 9; B2400 := 11; B9600 := 13;
  B19200 := 14; B38400 := 15; B115200 := 4098
|}.

(** [#define DEFAULT_TTY "/dev/ttyUSB0"] *)
Definition DEFAULT_TTY : string := "/dev/ttyUSB0".

(** What [main] prints while it reads its command line: with [printf],
    with [fprintf(stderr, ...)], with [perror]. *)
Inductive printed :=
| ToStdout (msg : string)
| ToStderr (msg : string)
| ByPerror (tag : string).

(** What the command line comes to: the options, the log files opened by
    [-l] in the order they were opened ([logfp] is the last), and the
    device to open. *)
Record cmdline := {
  cl_cfg : config;
  cl_logs : list string;
  cl_tty : string
}.

(** The command line is taken, or the program has called [exit] with a
    status, having printed [out] and opened the log files [logs]. *)
Inductive parsed (A : Type) :=
| Accepted (a : A)
| Rejected (status : Z) (out : list printed) (logs : list string).
Arguments Accepted {A} a.
Arguments Rejected {A} status out logs.

Section Options.

Variable sp : speeds.
Variable fopen_ok : string -> bool.

(** [usage()], after the program has printed [out] *)
Definition usage {A} (out : list printed) (logs : list string) : parsed A :=
  Rejected 1
    (out ++ [ToStderr
       ("Usage is: term [-eo7] [-s <speed>] [-p <protocol>] [-l <log>] [<tty>]"
        ++ LF)])
    logs.

(** [bad_parity()] *)
Definition bad_parity {A} (logs : list string) : parsed A :=
  usage [ToStderr ("Can't select both even and odd parity." ++ LF)] logs.

(** The chain of [strcmp] under [case 's']. *)
Definition speed_of (optarg : string) : option Z :=
  if (optarg =? "300")%string then Some (B300 sp)
  else if (optarg =? "1200")%string then Some (B1200 sp)
  else if (optarg =? "2400")%string then Some (B2400 sp)
  else if (optarg =? "9600")%string then Some (B9600 sp)
  else if (optarg =? "19200")%string then Some (B19200 sp)
  else if (optarg =? "38400")%string then Some (B38400 sp)
  else if (optarg =? "115200")%string then Some (B115200 sp)
  else None.

(** The chain of [strcmp] under [case 'p']. *)
Definition proto_of (optarg : string) : option Z :=
  if (optarg =? "x")%string then Some PROTO_RX
  else if (optarg =? "y")%string then Some PROTO_RY
  else if (optarg =? "z")%string then Some PROTO_RZ
  else if (optarg =? "txt")%string then Some PROTO_TXT
  else None.

(** The body of the [switch (x)]: the variables after it, with the log
    files opened so far. *)
Definition option_case (x : ascii) (optarg : string) (c : config)
           (logs : list string) : parsed (config * list string) :=
  if (x =? "s")%char then
    match speed_of optarg with
    | Some b =>
        Accepted ({| baud := b; parodd := parodd c; pareven := pareven c;
                     seven_bits := seven_bits c; raw_kbd := raw_kbd c;
                     proto := proto c |}, logs)
    | None => usage [ToStderr ("Illegal speed: " ++ optarg ++ LF)] logs
    end
  else if (x =? "p")%char then
    match proto_of optarg with
    | Some p =>
        Accepted ({| baud := baud c; parodd := parodd c; pareven := pareven c;
                     seven_bits := seven_bits c; raw_kbd := raw_kbd c;
                     proto := p |}, logs)
    | None => usage [ToStdout ("Illegal protocol: " ++ optarg ++ LF)] logs
    end
  else if (x =? "l")%char then
    if fopen_ok optarg then Accepted (c, logs ++ [optarg])
    else Rejected 1 [ByPerror optarg] logs
  else if (x =? "o")%char then
    if pareven c then bad_parity logs
    else Accepted ({| baud := baud c; parodd := true; pareven := pareven c;
                      seven_bits := seven_bits c; raw_kbd := raw_kbd c;
                      proto := proto c |}, logs)
  else if (x =? "e")%char then
    if parodd c then bad_parity logs
    else Accepted ({| baud := baud c; parodd := parodd c; pareven := true;
                      seven_bits := seven_bits c; raw_kbd := raw_kbd c;
                      proto := proto c |}, logs)
  else if (x =? "7")%char then
    Accepted ({| baud := baud c; parodd := parodd c; pareven := pareven c;
                 seven_bits := true; raw_kbd := raw_kbd c;
                 proto := proto c |}, logs)
  else if (x =? "r")%char then
    Accepted ({| baud := baud c; parodd := parodd c; pareven := pareven c;
                 seven_bits := seven_bits c; raw_kbd := true;
                 proto := proto c |}, logs)
  else
    usage [ToStdout ("Illegal option: " ++ String x EmptyString ++ LF)] logs.

(** [while ((x = getopt(argc, argv, "s:p:l:eo7r")) != -1) switch (x) ...] *)
Fixpoint getopt_loop (opts : list (ascii * string)) (c : config)
         (logs : list string) : parsed (config * list string) :=
  match opts with
  | [] => Accepted (c, logs)
  | (x, optarg) :: rest =>
      match option_case x optarg c logs with
      | Accepted (c', logs') => getopt_loop rest c' logs'
      | Rejected s out l => Rejected s out l
      end
  end.

(** The variables as they are initialised: 9600 baud, zmodem, the rest
    zero. *)
Definition initial_cfg : config := {|
  baud := B9600 sp; parodd := false; pareven := false; seven_bits := false;
  raw_kbd := false; proto := PROTO_RZ
|}.

(** [main] down to the two messages it prints before it opens the device:
    [opts] is what [getopt] returns, [args] the arguments left from
    [optind] on. *)
Definition command_line (opts : list (ascii * string)) (args : list string)
  : parsed cmdline :=
  match getopt_loop opts initial_cfg [] with
  | Rejected s out l => Rejected s out l
  | Accepted (c, logs) =>
      match args with
      | [] => Accepted {| cl_cfg := c; cl_logs := logs; cl_tty := DEFAULT_TTY |}
      | [tty] => Accepted {| cl_cfg := c; cl_logs := logs; cl_tty := tty |}
      | _ :: _ :: _ => usage [ToStdout ("Trailing argument(s)" ++ LF)] logs
      end
  end.

End Options.

(** The argument of the last option [x] among [opts], if there is one. *)
Fixpoint last_arg (x : ascii) (opts : list (ascii * string)) : option string :=
  match opts with
  | [] => None
  | (y, a) :: rest =>
      match last_arg x rest with
      | Some b => Some b
      | None => if (y =? x)%char then Some a else None
      end
  end.

(** The arguments of all the options [x] among [opts], in order. *)
Fixpoint all_args (x : ascii) (opts : list (ascii * string)) : list string :=
  match opts with
  | [] => []
  | (y, a) :: rest =>
      if (y =? x)%char then a :: all_args x rest else all_args x rest
  end.

(** The letters of the option string ["s:p:l:eo7r"]. *)
Definition option_letters : list ascii :=
  ["s"; "p"; "l"; "e"; "o"; "7"; "r"]%char.

(** ** A concrete machine, to run the model on *)

(** A terminal in its usual cooked mode and a serial line without parity,
    with the constants of Linux. *)
Definition cooked : termios := {|
  c_iflag := 17664; c_oflag := 5; c_cflag := 191; c_lflag := 35387;
  c_cc := [3; 28; 127; 21; 4; 0; 1; 0; 17; 19; 26; 0; 18; 15; 23; 22; 0];
  c_ispeed := 15; c_ospeed := 15
|}.

Definition fresh_line : termios := {|
  c_iflag := 0; c_oflag := 0; c_cflag := 0; c_lflag := 0;
  c_cc := [0; 0; 0; 0; 0; 0; 0; 0; 0; 0; 0; 0; 0; 0; 0; 0; 0];
  c_ispeed := 0; c_ospeed := 0
|}.

(** The world when [main] has opened its devices; [log] tells whether
    [-l] was given. *)
Definition boot_world (log : bool) : world := {|
  trace := [];
  tty_attr := cooked;
  line_attr := fresh_line;
  line_fl := 2048 + 2;
  otty := fresh_line;
  logfp := if log then Some [] else None;
  log_closed := false;
  child := CExited 0
|}.

(** The default options: 9600 baud (B9600 is 13 on Linux), no parity,
    eight bits, zmodem. *)
Definition default_cfg : config := {|
  baud := 13; parodd := false; pareven := false; seven_bits := false;
  raw_kbd := false; proto := PROTO_RZ
|}.

Definition with_parity (odd even : bool) : config := {|
  baud := 13; parodd := odd; pareven := even; seven_bits := false;
  raw_kbd := false; proto := PROTO_RZ
|}.

Definition with_proto (p : Z) : config := {|
  baud := 13; parodd := false; pareven := false; seven_bits := false;
  raw_kbd := false; proto := p
|}.

Definition with_raw_kbd : config := {|
  baud := 13; parodd := false; pareven := false; seven_bits := false;
  raw_kbd := true; proto := PROTO_RZ
|}.

(** An external program that leaves the line as it found it. *)
Definition polite : list Z -> termios -> termios := fun _ t => t.

(** An external program that leaves the line in seven bits with even
    parity and canonical input. *)
Definition rude : list Z -> termios -> termios :=
  fun _ t => set_lflag 35387 (set_cflag (32 + 256) t).

(** The world once the program runs: after [startup] with a successful
    [fork]. *)
Definition live_world (log : bool) : world :=
  match startup linux_bits default_cfg true [] (boot_world log) with
  | Ret _ _ w => w
  | _ => boot_world log
  end.

(** A file name of 59 letters [a] and a newline, typed at a prompt whose
    buffer holds 60 bytes. *)
Definition long_name : list rd := map RByte (repeat 97 59 ++ [10]).

(** The serial line as an external program may leave it: odd parity
    (PARENB and PARODD of Linux). *)
Definition odd_line : termios := set_cflag (256 + 512) fresh_line.

(** The running program after the child's read of the serial line has
    failed with an error other than EINTR. *)
Definition orphaned_world : world := downlink [SErr] (live_world false).

(** ** Specifications *)

(** The discipline of the two signals, read off a trace: [paused] is set by
    a SIGUSR1 sent to the child and cleared by a SIGUSR2; an external
    program may only run while it is set.  The result is the final value
    of [paused], or [None] when a program ran outside a pause. *)
Fixpoint handshake (paused : bool) (tr : list event) : option bool :=
  match tr with
  | [] => Some paused
  | (_, Kill SIGUSR1) :: r => handshake true r
  | (_, Kill SIGUSR2) :: r => handshake false r
  | (_, System _) :: r => if paused then handshake paused r else None
  | _ :: r => handshake paused r
  end.

(** The world [w] is reached from [w0] by calls that left the global
    [otty] alone, restored the terminal [n] times and kept the discipline
    of the signals, ending with [paused = b]. *)
Definition since (w0 : world) (b : bool) (n : nat) (w : world) : Prop :=
  otty w = otty w0 /\
  exists evs, trace w = trace w0 ++ evs /\
              count is_restore evs = n /\
              handshake false evs = Some b.

(** What is kept by a piece of the parent's code that starts on the input
    [inp] with [paused = b]: if it returns, it has read only from [inp],
    restored nothing and left [paused] as it was; if it exits, the status
    is 0, the terminal has the settings saved in [otty], and they were
    restored once; if it waits or is stuck, nothing was restored.  It never
    runs out of turns. *)
Definition keeps {A} (w0 : world) (b : bool) (inp : list rd)
           (o : outcome A) : Prop :=
  match o with
  | Ret _ rest w' =>
      (List.length rest <= List.length inp)%nat /\ since w0 b 0 w'
  | Blocked w' | Undef w' => exists b', since w0 b' 0 w'
  | Exited s w' =>
      s = 0 /\ tty_attr w' = otty w0 /\ exists b', since w0 b' 1 w'
  | NoFuel => False
  end.

(** The byte the parent's loop writes to the serial line for a keyboard
    byte that is not taken for the escape character. *)
Definition relayed (raw : bool) (b : Z) : Z :=
  let c := mask7 b in
  if negb raw && (c =? 10) then 13 else c.

(** What a run of the child's reads delivers: the masked blocks, one after
    the other. *)
Fixpoint payload (rs : list srd) : list Z :=
  match rs with
  | [] => []
  | SBlock bs :: r => map mask7 bs ++ payload r
  | _ :: r => payload r
  end.

(** No read of the run failed for good. *)
Fixpoint no_error (rs : list srd) : bool :=
  match rs with
  | [] => true
  | SErr :: _ => false
  | _ :: r => no_error r
  end.

(** The world after the bytes [bs] were echoed to the terminal, each
    masked, one [write] a byte. *)
Definition echoed (bs : list Z) (w : world) : world :=
  fold_left (fun w b => sys_write Parent TTYFD [mask7 b] w) bs w.

(** A byte that does not end the line typed at a prompt. *)
Definition in_line (b : Z) : Prop := mask7 b <> 10 /\ mask7 b <> 13.

(** The world after the keyboard bytes [ks] were relayed to the serial
    line, one [write] a byte. *)
Definition typed (raw : bool) (ks : list Z) (w : world) : world :=
  fold_left (fun w b => sys_write Parent RS232 [relayed raw b] w) ks w.

(** The child has not exited. *)
Definition alive (w : world) : bool :=
  match child w with
  | CExited _ => false
  | _ => true
  end.


(** What [done] makes of the world [w] it is called in, while the child
    lives: the child is sent SIGTERM, closes the log if there is one and
    exits with 0; the terminal gets the settings saved in [otty]; the
    notice goes to the terminal and nothing to the serial line; the parent
    exits. *)
Definition shut_down (w w' : world) : Prop :=
  trace w' = trace w ++
    (Parent, Kill SIGTERM) ::
    match logfp w with Some _ => [(Child, Fclose)] | None => [] end ++
    [(Child, Exit_ 0);
     (Parent, Tcsetattr TTYFD Otty (otty w));
     (Parent, Write_ TTYFD (bytes ("Exiting" ++ LF)));
     (Parent, Exit_ 0)] /\
  child w' = CExited 0 /\
  tty_attr w' = otty w /\
  log_closed w' = match logfp w with
                  | Some _ => true
                  | None => log_closed w
                  end /\
  written RS232 (trace w') = written RS232 (trace w) /\
  written TTYFD (trace w') =
    written TTYFD (trace w) ++ bytes ("Exiting" ++ LF).

(** What a piece of the parent's code keeps of a property [I] of the
    world that depends on whether the child was told to pause ([true]) or
    not: it returns with [I b]; it waits or is stuck with [I] for either
    value; and it exits only through [done], called in a world with [I]. *)
Definition holds {A} (I : bool -> world -> Prop) (b : bool)
           (o : outcome A) : Prop :=
  match o with
  | Ret _ _ w' => I b w'
  | Blocked w' | Undef w' => exists b', I b' w'
  | Exited st w' =>
      exists b' rest w1, I b' w1 /\ done rest w1 = Exited st w'
  | NoFuel => True
  end.

(** The child is where the parent's signals have put it, and the log, the
    terminal's settings and the saved settings are those of [w0]. *)
Definition child_follows (w0 : world) (b : bool) (w : world) : Prop :=
  child w = (if b then CPaused else CRunning) /\
  logfp w = logfp w0 /\ log_closed w = log_closed w0 /\
  tty_attr w = tty_attr w0 /\ otty w = otty w0.


(** The protocols [-p] can select. *)
Definition protocols : list Z := [PROTO_RX; PROTO_RY; PROTO_RZ; PROTO_TXT].

(** * Properties *)

(** ** Bytes *)

Lemma mask7_range (c : Z) : 0 <= mask7 c < 128.
Proof.
  unfold mask7.
  change 127 with (Z.ones 7).
  rewrite Z.land_ones by lia.
  apply Z.mod_pos_bound; reflexivity.
Qed.

(** Masking again, as [prompt_read] does with a byte left from the turn
    before when a read fails, changes nothing. *)
Lemma mask7_idem (c : Z) : mask7 (mask7 c) = mask7 c.
Proof.
  unfold mask7. rewrite <- Z.land_assoc. reflexivity.
Qed.

Lemma mask7_all_range (bs : list Z) :
  Forall (fun b => 0 <= b < 128) (map mask7 bs).
Proof.
  induction bs as [|b bs IH]; simpl; constructor; auto using mask7_range.
Qed.

(** ** Traces *)

Lemma written_app (f : fd) (a b : list event) :
  written f (a ++ b) = written f a ++ written f b.
Proof.
  induction a as [|[p c] a IH]; simpl; [reflexivity|].
  destruct c; try assumption.
  destruct f0, f; simpl; rewrite IH; auto using app_assoc.
Qed.

Lemma count_app (p : event -> bool) (a b : list event) :
  count p (a ++ b) = (count p a + count p b)%nat.
Proof.
  unfold count. rewrite filter_app, length_app. reflexivity.
Qed.

Lemma handshake_app (a b : list event) : forall s,
  handshake s (a ++ b) =
  match handshake s a with
  | Some s' => handshake s' b
  | None => None
  end.
Proof.
  induction a as [|[p c] a IH]; intros s; simpl; [reflexivity|].
  destruct c; auto.
  - destruct s0; auto.
  - destruct s; auto.
Qed.

Lemma trace_deliver (s : sig) (w : world) :
  s <> SIGTERM -> trace (deliver s w) = trace w.
Proof.
  intros Hs. unfold deliver.
  destruct (child w), s; simpl; congruence.
Qed.

Lemma trace_kill (s : sig) (w : world) :
  s <> SIGTERM -> trace (kill s w) = trace w ++ [(Parent, Kill s)].
Proof.
  intros Hs. unfold kill. rewrite trace_deliver by assumption. reflexivity.
Qed.

(** ** The child's loop *)

Lemma downlink_cons (r : srd) (rs : list srd) (w : world) :
  child w = CRunning ->
  downlink (r :: rs) w = downlink rs (downlink_body r w).
Proof. intros Hrun. simpl. rewrite Hrun. reflexivity. Qed.

Lemma downlink_body_block (bs : list Z) (w : world) :
  let buf := map mask7 bs in
  let w' := downlink_body (SBlock bs) w in
  trace w' = trace w ++
             (Child, Write_ TTYFD buf) ::
             match logfp w with
             | Some _ => [(Child, Fwrite buf)]
             | None => []
             end /\
  logfp w' = match logfp w with
             | Some l => Some (l ++ buf)
             | None => None
             end /\
  child w' = child w.
Proof.
  unfold downlink_body, sys_write. simpl.
  destruct (logfp w) as [l|] eqn:Hlog; simpl; rewrite <- ?app_assoc; auto.
Qed.

(** C1.  A block read from the serial line while the child is in its loop
    (not stopped in [pause()], not gone) is masked byte by byte to seven
    bits, written whole and in order to the user's terminal by one
    [write], and, when there is a log, appended whole to the log by one
    [fwrite]; without a log nothing is logged.  The child stays in its
    loop. *)
Theorem downlink_relays_block (bs : list Z) (w : world) :
  child w = CRunning ->
  let buf := map mask7 bs in
  let w' := downlink [SBlock bs] w in
  Forall (fun b => 0 <= b < 128) buf /\
  trace w' = trace w ++
             (Child, Write_ TTYFD buf) ::
             match logfp w with
             | Some _ => [(Child, Fwrite buf)]
             | None => []
             end /\
  written TTYFD (trace w') = written TTYFD (trace w) ++ buf /\
  logfp w' = match logfp w with
             | Some l => Some (l ++ buf)
             | None => None
             end /\
  child w' = CRunning.
Proof.
  intros Hrun buf w'. subst w'.
  rewrite downlink_cons by assumption. cbn [downlink].
  destruct (downlink_body_block bs w) as (Ht & Hl & Hc). fold buf in Ht, Hl.
  split; [apply mask7_all_range|].
  split; [exact Ht|]. split; [|split; [exact Hl | congruence]].
  rewrite Ht, written_app. f_equal.
  destruct (logfp w); simpl; rewrite ?app_nil_r; reflexivity.
Qed.

Lemma downlink_relays_block_witness :
  let w' := downlink [SBlock [200; 65; 10]] (live_world true) in
  written TTYFD (trace w') =
    written TTYFD (trace (live_world true)) ++ [72; 65; 10] /\
  logfp w' = Some [72; 65; 10].
Proof.
  destruct (downlink_relays_block [200; 65; 10] (live_world true))
    as (_ & _ & Hout & Hlog & _); [reflexivity|].
  split; [exact Hout | exact Hlog].
Defined.

(** X2.  A run of reads without a fatal error, by a child in its loop:
    the terminal and the log receive the masked blocks one after the
    other, in the order read; a read that was interrupted is tried again
    and adds nothing; the child stays in its loop. *)
Lemma downlink_relays_stream (rs : list srd) : forall w,
  child w = CRunning -> no_error rs = true ->
  let w' := downlink rs w in
  written TTYFD (trace w') = written TTYFD (trace w) ++ payload rs /\
  logfp w' = match logfp w with
             | Some l => Some (l ++ payload rs)
             | None => None
             end /\
  child w' = CRunning.
Proof.
  induction rs as [|r rs IH]; intros w Hrun Hok; cbn [downlink payload].
  - rewrite app_nil_r. destruct (logfp w); rewrite ?app_nil_r; auto.
  - change (match child w with
            | CRunning => downlink rs (downlink_body r w)
            | _ => w
            end) with (downlink (r :: rs) w).
    rewrite downlink_cons by assumption.
    destruct r as [bs| |]; simpl in Hok; try discriminate.
    + destruct (downlink_body_block bs w) as (Ht & Hl & Hc).
      destruct (IH (downlink_body (SBlock bs) w)) as (Ho' & Hl' & Hc');
        [congruence | assumption |].
      cbv zeta in Ho', Hl'. rewrite Ho', Hl', Hl, Ht, written_app.
      split; [|split; [|exact Hc']].
      * rewrite <- app_assoc. f_equal.
        destruct (logfp w); simpl; rewrite ?app_nil_r; reflexivity.
      * destruct (logfp w); [rewrite <- app_assoc|]; reflexivity.
    + apply (IH w Hrun Hok).
Qed.

(** ** setup_serial *)

(** C6.  [setup_serial] does not apply the parity that was asked for.  On
    a line found without parity, asking for even parity (-e) gives the
    settings of no parity at all, and asking for odd parity (-o) sets
    PARODD but leaves PARENB clear, so that no parity is generated or
    checked; on a line found with odd parity, asking for even parity leaves
    odd parity on. *)
Theorem setup_serial_parity_not_applied :
  let line cfg t :=
    line_attr (setup_serial linux_bits cfg
                 (set_line_attr t (boot_world false))) in
  let none := with_parity false false in
  let odd := with_parity true false in
  let even := with_parity false true in
  Z.land (c_cflag (line even fresh_line)) (PARENB linux_bits) = 0 /\
  line even fresh_line = line none fresh_line /\
  Z.land (c_cflag (line odd fresh_line)) (PARENB linux_bits) = 0 /\
  Z.land (c_cflag (line odd fresh_line)) (PARODD linux_bits)
    = PARODD linux_bits /\
  Z.land (c_cflag (line even odd_line))
         (Z.lor (PARENB linux_bits) (PARODD linux_bits))
    = Z.lor (PARENB linux_bits) (PARODD linux_bits).
Proof. vm_compute. repeat split. Qed.

(** With even parity asked for, the flags of [c_cflag] are computed without
    any mention of PARENB or PARODD, whatever the header's constants. *)
Lemma serial_mode_even_leaves_parity (tb : termbits) (cfg : config)
      (ext : termios) :
  parodd cfg = false -> pareven cfg = true ->
  c_cflag (serial_mode tb cfg ext) =
  bic (bis (bic (bis (c_cflag ext) (CLOCAL tb)) (CSIZE tb))
           (if seven_bits cfg then CS7 tb else CS8 tb))
      (CSTOPB tb).
Proof.
  intros Ho He. unfold serial_mode. rewrite Ho, He.
  destruct (seven_bits cfg); reflexivity.
Qed.

Lemma land_bic_same (x m : Z) : Z.land (bic x m) m = 0.
Proof.
  unfold bic. rewrite <- Z.land_assoc, (Z.land_comm (Z.lnot m)).
  rewrite Z.land_lnot_diag. apply Z.land_0_r.
Qed.

Lemma nth_array_set_same (i : nat) (v : Z) (a : list Z) :
  (i < List.length a)%nat -> nth i (array_set i v a) 0 = v.
Proof.
  revert i; induction a as [|x a IH]; intros [|i] H; simpl in *;
    try lia; auto with arith.
Qed.

Lemma nth_array_set_other (i j : nat) (v : Z) (a : list Z) :
  i <> j -> nth j (array_set i v a) 0 = nth j a 0.
Proof.
  revert i j; induction a as [|x a IH]; intros [|i] [|j] H; simpl;
    try congruence; auto.
Qed.

Lemma length_array_set (i : nat) (v : Z) (a : list Z) :
  List.length (array_set i v a) = List.length a.
Proof.
  revert i; induction a as [|x a IH]; intros [|i]; simpl; auto.
Qed.

(** X5.  What [setup_serial] does establish, whatever the header's
    constants and whatever settings it finds on the line:
    no echo, no canonical input, no signal characters, no output
    processing, no input processing; the speed asked for, in both
    directions; reads that return after a tenth of a second without input
    (VTIME 1) or when BUFSIZE bytes have come (VMIN); and, with no parity
    asked for, PARENB clear. *)
Lemma serial_mode_contract (tb : termbits) (cfg : config) (ext : termios) :
  let t := serial_mode tb cfg ext in
  Z.land (c_lflag t) (Z.lor (Z.lor (ECHO tb) (ICANON tb)) (ISIG tb)) = 0 /\
  Z.land (c_oflag t) (OPOST tb) = 0 /\
  c_iflag t = 0 /\
  c_ispeed t = baud cfg /\ c_ospeed t = baud cfg /\
  ((VTIME tb < List.length (c_cc ext))%nat -> nth (VTIME tb) (c_cc t) 0 = 1) /\
  ((VMIN tb < List.length (c_cc ext))%nat -> VMIN tb <> VTIME tb ->
   nth (VMIN tb) (c_cc t) 0 = BUFSIZE) /\
  (parodd cfg = false -> pareven cfg = false ->
   Z.land (c_cflag t) (PARENB tb) = 0).
Proof.
  unfold serial_mode.
  destruct (seven_bits cfg), (parodd cfg), (pareven cfg); simpl;
    repeat split; try discriminate; auto using land_bic_same;
    intros; try (rewrite nth_array_set_same; [reflexivity|]);
    try (rewrite nth_array_set_other by congruence;
         apply nth_array_set_same; assumption);
    rewrite ?length_array_set; assumption.
Qed.

(** *** The flags of [c_cflag] on Linux *)

Lemma testbit_above (c n : Z) :
  0 <= c < 4096 -> 12 <= n -> Z.testbit c n = false.
Proof.
  intros Hc Hn. destruct (Z.eq_dec c 0) as [->|Hne]; [apply Z.bits_0|].
  apply Z.bits_above_log2; [lia|].
  assert (Z.log2 c < 12) by (apply Z.log2_lt_pow2; lia). lia.
Qed.

Lemma below_12 (P : Z -> Prop) :
  Forall P (map Z.of_nat (seq 0 12)) -> forall n, 0 <= n < 12 -> P n.
Proof.
  intros H n Hn. rewrite Forall_forall in H. apply H.
  apply in_map_iff. exists (Z.to_nat n). split; [lia|].
  apply in_seq. lia.
Qed.

(** An equation between flag words with constants below 4096: bit by bit,
    the low twelve bits one at a time. *)
Ltac bitwise :=
  let n := fresh "n" in
  let Hn := fresh "Hn" in
  let v := fresh "v" in
  apply Z.bits_inj'; intros n Hn;
  unfold bis, bic;
  repeat (rewrite Z.land_spec || rewrite Z.lor_spec
          || rewrite Z.lnot_spec by assumption);
  match goal with
  | |- context [Z.testbit (c_cflag ?e) n] =>
      generalize (Z.testbit (c_cflag e) n); intros v
  end;
  destruct (Z.lt_ge_cases n 12);
  [ revert v; pattern n; apply below_12; [|lia];
    repeat constructor; intros v; destruct v; reflexivity
  | rewrite ?(testbit_above 2048 n), ?(testbit_above 48 n),
      ?(testbit_above 32 n), ?(testbit_above 64 n), ?(testbit_above 256 n),
      ?(testbit_above 512 n), ?(testbit_above 0 n) by lia;
    destruct v; reflexivity ].

(** X6.  With the constants of Linux, whatever the options and the
    settings found: modem status lines are ignored (CLOCAL), the character
    size is the one asked for, and there is one stop bit. *)
Lemma serial_mode_linux_cflag (cfg : config) (ext : termios) :
  let t := serial_mode linux_bits cfg ext in
  Z.land (c_cflag t) (CLOCAL linux_bits) = CLOCAL linux_bits /\
  Z.land (c_cflag t) (CSIZE linux_bits) =
    (if seven_bits cfg then CS7 linux_bits else CS8 linux_bits) /\
  Z.land (c_cflag t) (CSTOPB linux_bits) = 0.
Proof.
  unfold serial_mode.
  destruct (seven_bits cfg), (parodd cfg), (pareven cfg); simpl;
    repeat split; bitwise.
Qed.

(** ** prompt_read *)

Lemma echoed_app (a b : list Z) (w : world) :
  echoed (a ++ b) w = echoed b (echoed a w).
Proof. unfold echoed. apply fold_left_app. Qed.

Lemma trace_echoed (bs : list Z) : forall w,
  trace (echoed bs w) =
  trace w ++ map (fun b => (Parent, Write_ TTYFD [mask7 b])) bs.
Proof.
  induction bs as [|b bs IH]; intros w; simpl.
  - symmetry; apply app_nil_r.
  - rewrite IH. simpl. rewrite <- app_assoc. reflexivity.
Qed.

(** The loop on a line: bytes [ks] that do not end it, then a byte [t]
    that does.  Every byte is echoed masked; the first [len] of the masked
    bytes, the end of line among them if it comes that early, go to the
    buffer; the last byte that went to the buffer is then replaced by the
    NUL. *)
Lemma prompt_loop_line (ks : list Z) (t : Z) (rest : list rd) :
  Forall in_line ks -> ~ in_line t ->
  forall (c : option Z) (stored : list Z) (len : Z) (w : world),
  0 <= len ->
  prompt_loop (map RByte ks ++ RByte t :: rest) c stored len w =
  let stored' :=
    stored ++ firstn (Z.to_nat len) (map mask7 (ks ++ [t])) in
  match stored' with
  | [] => Undef (echoed (ks ++ [t]) w)
  | _ => Ret (removelast stored') rest (echoed (ks ++ [t]) w)
  end.
Proof.
  intros Hks Ht. induction Hks as [|k ks [Hk1 Hk2] Hks IH];
    intros c stored len w Hlen.
  - cbn [map app prompt_loop echoed fold_left].
    assert (Hend : negb (mask7 t =? 10) && negb (mask7 t =? 13) = false).
    { unfold in_line in Ht.
      destruct (Z.eqb_spec (mask7 t) 10), (Z.eqb_spec (mask7 t) 13);
        simpl; try reflexivity. exfalso; apply Ht; split; assumption. }
    rewrite Hend.
    destruct (Z.eqb_spec len 0) as [->|Hne].
    + simpl. rewrite app_nil_r. reflexivity.
    + replace (Z.to_nat len) with (S (Z.to_nat (len - 1))) by lia.
      simpl. rewrite firstn_nil. reflexivity.
  - cbn [map app prompt_loop].
    apply Z.eqb_neq in Hk1, Hk2. rewrite Hk1, Hk2. cbn [negb andb].
    destruct (Z.eqb_spec len 0) as [->|Hne].
    + rewrite IH by lia. simpl. rewrite app_nil_r. reflexivity.
    + rewrite IH by lia.
      replace (Z.to_nat len) with (S (Z.to_nat (len - 1))) by lia.
      cbn [map app firstn]. rewrite <- app_assoc. reflexivity.
Qed.

(** X9.  A line shorter than the room in the buffer: the file name is
    the masked line without its end, all of it was echoed, after the
    prompt, and the input after the end of the line is left unread. *)
Lemma prompt_read_short (prompt : string) (len : Z) (ks : list Z) (t : Z)
      (rest : list rd) (w : world) :
  Forall in_line ks -> ~ in_line t ->
  Z.of_nat (List.length ks) < len - 1 ->
  prompt_read prompt len (map RByte ks ++ RByte t :: rest) w =
  Ret (map mask7 ks) rest
      (echoed (ks ++ [t]) (sys_write Parent TTYFD (bytes prompt) w)).
Proof.
  intros Hks Ht Hlen. unfold prompt_read.
  rewrite prompt_loop_line by (assumption || lia).
  cbn [app]. rewrite firstn_all2.
  - rewrite map_app. cbn [map]. rewrite removelast_last.
    destruct (map mask7 ks); reflexivity.
  - rewrite length_map, length_app. simpl. lia.
Qed.

(** X10.  A line that fills the buffer or more: of the [len - 1] bytes
    that went to the buffer the last one is lost to the NUL, and the file
    name is the first [len - 2] bytes of the masked line; the rest of the
    line is read and echoed all the same. *)
Lemma prompt_read_long (prompt : string) (len : Z) (ks : list Z) (t : Z)
      (rest : list rd) (w : world) :
  Forall in_line ks -> ~ in_line t ->
  2 <= len -> len - 1 <= Z.of_nat (List.length ks) ->
  prompt_read prompt len (map RByte ks ++ RByte t :: rest) w =
  Ret (firstn (Z.to_nat (len - 2)) (map mask7 ks)) rest
      (echoed (ks ++ [t]) (sys_write Parent TTYFD (bytes prompt) w)).
Proof.
  intros Hks Ht Hlen Hlong. unfold prompt_read.
  rewrite prompt_loop_line by (assumption || lia).
  cbn [app]. rewrite map_app, firstn_app.
  replace (Z.to_nat (len - 1) - List.length (map mask7 ks))%nat with O
    by (rewrite length_map; lia).
  rewrite firstn_O, app_nil_r.
  replace (Z.to_nat (len - 1)) with (S (Z.to_nat (len - 2))) by lia.
  rewrite removelast_firstn by (rewrite length_map; lia).
  destruct (map mask7 ks) eqn:E.
  - apply (f_equal (@List.length Z)) in E. rewrite length_map in E.
    simpl in E. lia.
  - reflexivity.
Qed.

(** C8.  At the prompt of a send, with its buffer of 60 bytes, a line of
    59 letters and a newline is echoed whole, and 59 letters go to the
    buffer; the file name that results has 58 of them: the NUL meant for
    the newline replaces the last letter. *)
Theorem prompt_read_loses_last_byte :
  exists w',
    prompt_read "Send file: " 60 long_name (live_world false)
      = Ret (repeat 97 58) [] w' /\
    written TTYFD (trace w') =
      written TTYFD (trace (live_world false)) ++
      bytes "Send file: " ++ repeat 97 59 ++ [10].
Proof.
  eexists. split; vm_compute; reflexivity.
Qed.

(** ** The parent's loop *)

Section Uplink.

Variable tb : termbits.
Variable external : list Z -> termios -> termios.
Variable cfg : config.

Lemma uplink_escape (fuel : nat) (b : Z) (rest : list rd) (w : world) :
  mask7 b = PROTO_CHAR ->
  uplink tb external cfg (S fuel) (RByte b :: rest) w =
  (proto_xfer tb external cfg ;; act (kill SIGUSR2) ;;
   uplink tb external cfg fuel) rest (kill SIGUSR1 w).
Proof.
  intros Hb. cbn [uplink]. rewrite Hb. reflexivity.
Qed.

Lemma uplink_relay (fuel : nat) (b : Z) (rest : list rd) (w : world) :
  mask7 b <> PROTO_CHAR ->
  uplink tb external cfg (S fuel) (RByte b :: rest) w =
  uplink tb external cfg fuel rest
    (sys_write Parent RS232 [relayed (raw_kbd cfg) b] w).
Proof.
  intros Hb. cbn [uplink]. apply Z.eqb_neq in Hb. rewrite Hb. reflexivity.
Qed.

Lemma trace_typed (raw : bool) (ks : list Z) : forall w,
  trace (typed raw ks w) =
  trace w ++ map (fun b => (Parent, Write_ RS232 [relayed raw b])) ks.
Proof.
  induction ks as [|b ks IH]; intros w; simpl.
  - symmetry; apply app_nil_r.
  - rewrite IH. simpl. rewrite <- app_assoc. reflexivity.
Qed.

Lemma written_relays (raw : bool) (ks : list Z) :
  written RS232 (map (fun b => (Parent, Write_ RS232 [relayed raw b])) ks)
  = map (relayed raw) ks.
Proof.
  induction ks as [|b ks IH]; simpl; congruence.
Qed.

Lemma uplink_relays (ks : list Z) : forall (fuel : nat) (w : world),
  Forall (fun b => mask7 b <> PROTO_CHAR) ks ->
  (List.length ks < fuel)%nat ->
  uplink tb external cfg fuel (map RByte ks) w =
  Blocked (typed (raw_kbd cfg) ks w).
Proof.
  induction ks as [|b ks IH]; intros fuel w Hks Hfuel.
  - destruct fuel; [inversion Hfuel | reflexivity].
  - destruct fuel as [|fuel]; [inversion Hfuel|].
    inversion Hks; subst. cbn [map].
    rewrite uplink_relay by assumption.
    apply IH; [assumption | simpl in Hfuel; lia].
Qed.

End Uplink.

(** C2, as amended.  Keyboard bytes none of which is the escape character
    once masked to seven bits are each written to the serial line, in
    order and one [write] a byte, and nothing else happens; the byte
    written is the masked byte, except that without the raw-keyboard flag a
    byte that is a newline once masked is written as a carriage return. *)
Theorem uplink_relays_masked (tb : termbits)
        (external : list Z -> termios -> termios) (cfg : config)
        (ks : list Z) (w : world) :
  Forall (fun b => mask7 b <> PROTO_CHAR) ks ->
  exists w',
    main_loop tb external cfg (map RByte ks) w = Blocked w' /\
    trace w' = trace w ++
      map (fun b => (Parent,
             Write_ RS232 [if negb (raw_kbd cfg) && (mask7 b =? 10)
                          then 13 else mask7 b])) ks /\
    written RS232 (trace w') = written RS232 (trace w) ++
      map (fun b => if negb (raw_kbd cfg) && (mask7 b =? 10)
                    then 13 else mask7 b) ks.
Proof.
  intros Hks. exists (typed (raw_kbd cfg) ks w).
  split; [|split].
  - unfold main_loop. apply uplink_relays; [assumption|].
    rewrite length_map. lia.
  - apply trace_typed.
  - rewrite trace_typed, written_app, written_relays. reflexivity.
Qed.

Lemma uplink_relays_masked_witness :
  exists w',
    main_loop linux_bits polite default_cfg
      (map RByte [97; 225; 10; 13]) (live_world false) = Blocked w' /\
    written RS232 (trace w') = [97; 97; 13; 13].
Proof.
  destruct (uplink_relays_masked linux_bits polite default_cfg
              [97; 225; 10; 13] (live_world false)) as (w' & Hrun & _ & Hw).
  - repeat constructor; vm_compute; discriminate.
  - exists w'. split; [exact Hrun | exact Hw].
Defined.

(** C2, as first stated, fails.  The byte 0x9A is not the escape
    character, yet it is not written to the serial line: nothing is.  The
    byte 0x8A is neither the escape character nor a newline, yet without
    the raw-keyboard flag it is written as a carriage return and not as
    0x0A, its value masked to seven bits. *)
Lemma uplink_high_bit_bytes_not_relayed :
  (154 <> PROTO_CHAR /\
   exists w',
     main_loop linux_bits polite default_cfg [RByte 154] (live_world false)
       = Blocked w' /\
     written RS232 (trace w') = []) /\
  (138 <> PROTO_CHAR /\ 138 <> 10 /\ mask7 138 = 10 /\
   raw_kbd default_cfg = false /\
   exists w',
     main_loop linux_bits polite default_cfg [RByte 138] (live_world false)
       = Blocked w' /\
     written RS232 (trace w') = [13]).
Proof.
  split.
  - split; [discriminate|]. eexists. split; vm_compute; reflexivity.
  - repeat (split; [try discriminate; reflexivity|]).
    eexists. split; vm_compute; reflexivity.
Qed.

(** C10.  The escape character is looked for in the byte masked to seven
    bits.  A keyboard byte [b] starts the handshake (SIGUSR1 is sent to the
    child and [proto_xfer] takes over) exactly when [b AND 0x7F] is 0x1A,
    and exactly then nothing is written to the serial line for it; so does
    the byte 0x9A. *)
Theorem escape_detected_after_masking (tb : termbits)
        (external : list Z -> termios -> termios) (cfg : config)
        (b : Z) (w : world) :
  (forall fuel rest,
     uplink tb external cfg (S fuel) (RByte b :: rest) w =
     if Z.land b 127 =? 26
     then (proto_xfer tb external cfg ;; act (kill SIGUSR2) ;;
           uplink tb external cfg fuel) rest (kill SIGUSR1 w)
     else uplink tb external cfg fuel rest
            (sys_write Parent RS232 [relayed (raw_kbd cfg) b] w)) /\
  (exists w',
     main_loop tb external cfg [RByte b] w = Blocked w' /\
     (trace w' = trace w ++ [(Parent, Kill SIGUSR1)] <-> Z.land b 127 = 26) /\
     (written RS232 (trace w') = written RS232 (trace w)
      <-> Z.land b 127 = 26)) /\
  main_loop tb external cfg [RByte 154] w = Blocked (kill SIGUSR1 w).
Proof.
  split; [|split; [|reflexivity]].
  - intros fuel rest. fold (mask7 b). change 26 with PROTO_CHAR.
    destruct (Z.eqb_spec (mask7 b) PROTO_CHAR) as [He|Hne].
    + apply uplink_escape; assumption.
    + apply uplink_relay; assumption.
  - fold (mask7 b). change 26 with PROTO_CHAR.
    destruct (Z.eq_dec (mask7 b) PROTO_CHAR) as [He|Hne].
    + exists (kill SIGUSR1 w). unfold main_loop. cbn [List.length].
      rewrite uplink_escape by assumption.
      rewrite trace_kill by discriminate.
      split; [reflexivity|]. split; [tauto|].
      rewrite written_app. simpl. rewrite app_nil_r. tauto.
    + exists (sys_write Parent RS232 [relayed (raw_kbd cfg) b] w).
      unfold main_loop. cbn [List.length].
      rewrite uplink_relay by assumption.
      split; [reflexivity|]. cbn [sys_write emit set_trace trace].
      split; split; intros H; try contradiction; exfalso.
      * apply app_inv_head in H. discriminate.
      * rewrite written_app in H. simpl in H.
        apply (f_equal (@List.length Z)) in H.
        rewrite length_app in H. simpl in H. lia.
Qed.



(** ** The sub-commands *)

Lemma chr_values :
  chr "q" = 113 /\ chr "Q" = 81 /\ chr "r" = 114 /\ chr "R" = 82 /\
  chr "s" = 115 /\ chr "S" = 83 /\ chr "t" = 116 /\ chr "T" = 84.
Proof. repeat split. Qed.

Lemma done_shuts_down (rest : list rd) (w : world) :
  alive w = true ->
  exists w', done rest w = Exited 0 w' /\ shut_down w w'.
Proof.
  intros Ha. eexists. split; [reflexivity|].
  destruct w as [tr ta la fl ot lg lc ch]. unfold alive in Ha. simpl in Ha.
  unfold shut_down, kill, deliver, do_term, tcsetattr, sys_write, emit.
  destruct ch; try discriminate; destruct lg; simpl;
    rewrite <- ?app_assoc, ?written_app; simpl; rewrite ?app_nil_r;
    repeat split; reflexivity.
Qed.

Lemma bind_ret_inv {A B} (m : M A) (k : A -> M B) inp w b rest w' :
  (x <- m ;; k x) inp w = Ret b rest w' ->
  exists a r0 w0, m inp w = Ret a r0 w0 /\ k a r0 w0 = Ret b rest w'.
Proof.
  unfold bind. destruct (m inp w) as [a r0 w0| | | |]; try discriminate.
  intros H. exists a, r0, w0. split; [reflexivity | exact H].
Qed.


Section Dispatch.

Variable tb : termbits.
Variable external : list Z -> termios -> termios.
Variable cfg : config.

Lemma proto_xfer_byte (b : Z) (rest : list rd) (w : world) :
  mask7 b <> PROTO_CHAR ->
  proto_xfer tb external cfg (RByte b :: rest) w =
  ((if (mask7 b =? 113) || (mask7 b =? 81) then done else ret tt) ;;
   if (mask7 b =? 114) || (mask7 b =? 82) then
     rx_xfer external cfg ;; act (setup_serial tb cfg)
   else if (mask7 b =? 115) || (mask7 b =? 83) ||
           (mask7 b =? 116) || (mask7 b =? 84) then
     tx_xfer external cfg ;; act (setup_serial tb cfg)
   else act (sys_write Parent TTYFD helpmsg)) rest w.
Proof.
  intros Hb. apply Z.eqb_neq in Hb.
  cbn [proto_xfer]. rewrite Hb. reflexivity.
Qed.


(** C7, as amended.  With the child alive, the session ends in the same
    way from the end of the keyboard input, from a failed read of the
    keyboard and from [q] after the escape character: [done] sends
    SIGTERM to the child, which closes the log if there is one and
    exits; the terminal gets back the settings saved at the start; the
    notice goes to the user's terminal; and the parent exits with status
    0, after a failed read too. *)
Theorem terminating_actions (fuel : nat) (rest : list rd) (w : world) :
  alive w = true ->
  (exists w',
     uplink tb external cfg (S fuel) (REof :: rest) w = Exited 0 w' /\
     shut_down w w') /\
  (exists w',
     uplink tb external cfg (S fuel) (RErr :: rest) w = Exited 0 w' /\
     shut_down (emit (Parent, Perror "parent") w) w') /\
  (forall e q,
     mask7 e = PROTO_CHAR -> mask7 q = chr "q" \/ mask7 q = chr "Q" ->
     exists w',
       uplink tb external cfg (S fuel) (RByte e :: RByte q :: rest) w
         = Exited 0 w' /\
       shut_down (kill SIGUSR1 w) w').
Proof.
  intros Ha. split; [|split].
  - apply done_shuts_down; assumption.
  - apply (done_shuts_down rest (emit (Parent, Perror "parent") w)).
    exact Ha.
  - intros e q He Hq.
    destruct (done_shuts_down rest (kill SIGUSR1 w)) as (w' & Hd & Hs).
    { destruct w as [tr ta la fl ot lg lc ch].
      unfold alive in *. unfold kill, deliver, emit; simpl in *.
      destruct ch; simpl; congruence. }
    exists w'. split; [|exact Hs].
    rewrite uplink_escape by assumption.
    unfold bind at 1.
    rewrite proto_xfer_byte.
    + destruct chr_values as (Eq & EQ & _). rewrite Eq, EQ in Hq.
      destruct Hq as [H|H]; rewrite H; unfold bind at 1 2;
        cbn [Z.eqb Pos.eqb orb]; rewrite Hd; reflexivity.
    + destruct chr_values as (Eq & EQ & _). rewrite Eq, EQ in Hq.
      unfold PROTO_CHAR. destruct Hq; lia.
Qed.

End Dispatch.


Lemma terminating_actions_witness :
  exists w',
    uplink linux_bits polite default_cfg 1 [REof] (live_world true)
      = Exited 0 w' /\
    shut_down (live_world true) w'.
Proof.
  destruct (terminating_actions linux_bits polite default_cfg 0 []
              (live_world true)) as (H & _).
  - reflexivity.
  - exact H.
Defined.

(** C7, as first stated, fails.  After a failed read of the keyboard the
    parent reports the error and exits with status 0, the status of a quit;
    and the notice is written to the user's terminal: nothing is written
    to the serial line. *)
Lemma done_status_and_notice :
  exists w',
    main_loop linux_bits polite default_cfg [RErr] (live_world true)
      = Exited 0 w' /\
    In (Parent, Perror "parent") (trace w') /\
    written RS232 (trace w') = [] /\
    written TTYFD (trace w') = boot_msg ++ bytes ("Exiting" ++ LF).
Proof.
  eexists. split; [vm_compute; reflexivity|].
  split; [vm_compute; tauto|]. split; vm_compute; reflexivity.
Qed.

(** ** What every run keeps *)

Lemma since_refl (w : world) : since w false 0 w.
Proof.
  split; [reflexivity|]. exists []. rewrite app_nil_r. auto.
Qed.

(** A step that appends the calls [evs] and leaves [otty] alone. *)
Lemma since_step (w0 w w' : world) (b b' : bool) (k : nat)
      (evs : list event) :
  since w0 b 0 w ->
  otty w' = otty w -> trace w' = trace w ++ evs ->
  handshake b evs = Some b' -> count is_restore evs = k ->
  since w0 b' k w'.
Proof.
  intros (Ho & evs0 & Ht & Hc & Hh) Ho' Ht' Hh' Hk.
  split; [congruence|]. exists (evs0 ++ evs).
  rewrite Ht', Ht, <- app_assoc, count_app, handshake_app, Hc, Hh, Hk.
  auto.
Qed.

Lemma since_emit (w0 w : world) (b : bool) (e : event) :
  since w0 b 0 w ->
  handshake b [e] = Some b -> is_restore e = false ->
  since w0 b 0 (emit e w).
Proof.
  intros Hs Hh Hr.
  apply (since_step w0 w (emit e w) b b 0 [e]); auto.
  unfold count. simpl. rewrite Hr. reflexivity.
Qed.

Lemma keeps_bind {A B} (w0 : world) (b b2 : bool) (m : M A) (k : A -> M B)
      (inp : list rd) (w : world) :
  keeps w0 b inp (m inp w) ->
  (forall a rest w', (List.length rest <= List.length inp)%nat ->
                     since w0 b 0 w' -> keeps w0 b2 rest (k a rest w')) ->
  keeps w0 b2 inp ((x <- m ;; k x) inp w).
Proof.
  intros Hm Hk. unfold bind.
  destruct (m inp w) as [a rest w'| | | |]; simpl in *; auto.
  destruct Hm as (Hl & Hs). specialize (Hk a rest w' Hl Hs).
  destruct (k a rest w') as [c rest2 w2| | | |]; simpl in *; auto.
  destruct Hk; split; [lia | assumption].
Qed.

Lemma keeps_act (w0 : world) (b : bool) (f : world -> world)
      (inp : list rd) (w : world) :
  since w0 b 0 (f w) -> keeps w0 b inp (act f inp w).
Proof. intros H. simpl. split; [lia | exact H]. Qed.

Lemma keeps_shorter {A} (w0 : world) (b : bool) (inp inp' : list rd)
      (o : outcome A) :
  (List.length inp <= List.length inp')%nat ->
  keeps w0 b inp o -> keeps w0 b inp' o.
Proof.
  intros Hl. destruct o; simpl; auto. intros (H1 & H2); split; [lia|auto].
Qed.

Lemma since_write (w0 w : world) (b : bool) (p : proc) (f : fd)
      (bs : list Z) :
  since w0 b 0 w -> since w0 b 0 (sys_write p f bs w).
Proof. intros H. apply since_emit; auto. Qed.

Lemma prompt_loop_keeps (w0 : world) (b : bool) (inp : list rd) :
  forall c stored len w,
    since w0 b 0 w -> keeps w0 b inp (prompt_loop inp c stored len w).
Proof.
  induction inp as [|r rest IH]; intros c stored len w Hs.
  - simpl. eauto.
  - assert (Hbyte : forall v,
              keeps w0 b (r :: rest)
                (let c := mask7 v in
                 let w := sys_write Parent TTYFD [c] w in
                 let stored' := if len =? 0 then stored else stored ++ [c] in
                 let len' := if len =? 0 then len else len - 1 in
                 if negb (c =? 10) && negb (c =? 13)
                 then prompt_loop rest (Some c) stored' len' w
                 else match stored' with
                      | [] => Undef w
                      | _ => Ret (removelast stored') rest w
                      end)).
    { intros v. cbv zeta.
      pose proof (since_write w0 w b Parent TTYFD [mask7 v] Hs) as Hs'.
      destruct (negb (mask7 v =? 10) && negb (mask7 v =? 13)).
      - apply (keeps_shorter w0 b rest); [simpl; lia|]. apply IH; exact Hs'.
      - destruct (if len =? 0 then stored else stored ++ [mask7 v]);
          simpl; eauto; try (split; [lia | exact Hs']). }
    destruct r as [x| |].
    + apply (Hbyte x).
    + cbn [prompt_loop].
      apply (keeps_shorter w0 b rest); [simpl; lia|]. apply IH; exact Hs.
    + cbn [prompt_loop]. destruct c as [v|]; [apply (Hbyte v)|].
      simpl. eauto.
Qed.

Lemma prompt_read_keeps (w0 : world) (b : bool) (prompt : string) (len : Z)
      (inp : list rd) (w : world) :
  since w0 b 0 w -> keeps w0 b inp (prompt_read prompt len inp w).
Proof.
  intros Hs. unfold prompt_read. apply prompt_loop_keeps.
  apply since_write; exact Hs.
Qed.

Section Keeps.

Variable tb : termbits.
Variable external : list Z -> termios -> termios.
Variable cfg : config.
Variable w0 : world.

Lemma since_system (cmd : list Z) (w : world) :
  since w0 true 0 w -> since w0 true 0 (system external cmd w).
Proof.
  intros Hs.
  apply (since_step w0 w (system external cmd w) true true 0
           [(Parent, System cmd)]); auto.
Qed.

Lemma since_setup_serial (b : bool) (w : world) :
  since w0 b 0 w -> since w0 b 0 (setup_serial tb cfg w).
Proof.
  intros Hs.
  apply (since_step w0 w (setup_serial tb cfg w) b b 0
           [(Parent, Tcsetattr RS232 Ext (serial_mode tb cfg (line_attr w)));
            (Parent, Fcntl_setfl RS232 (bic (line_fl w) (O_NDELAY tb)))]);
    auto.
  unfold setup_serial, tcsetattr, emit. simpl.
  rewrite <- app_assoc. reflexivity.
Qed.

Lemma since_kill (b : bool) (s : sig) (w : world) :
  s <> SIGTERM ->
  since w0 b 0 w ->
  since w0 (match s with SIGUSR1 => true | _ => false end) 0 (kill s w).
Proof.
  intros Hne Hs.
  refine (since_step w0 w (kill s w) b _ 0 [(Parent, Kill s)] Hs _ _ _ _).
  - destruct w as [tr ta la fl ot lg lc ch].
    unfold kill, deliver, emit. destruct ch, s; simpl; congruence.
  - apply trace_kill; assumption.
  - destruct s; simpl; congruence.
  - destruct s; reflexivity.
Qed.

Lemma done_keeps (b b2 : bool) (inp inp' : list rd) (w : world) :
  since w0 b 0 w -> keeps w0 b2 inp (done inp' w).
Proof.
  intros Hs. pose proof Hs as (Ho & _).
  unfold done. simpl. split; [reflexivity|].
  destruct w as [tr ta la fl ot lg lc ch]. simpl in Ho.
  split.
  - unfold kill, deliver, do_term, tcsetattr, sys_write, emit.
    destruct ch; simpl; try destruct lg; simpl; congruence.
  - exists b.
    match goal with
    | |- since _ _ _ ?w' =>
        refine (since_step w0 _ w' b b 1
                  ((Parent, Kill SIGTERM) ::
                   match ch with
                   | CExited _ => []
                   | _ => match lg with
                          | Some _ => [(Child, Fclose)]
                          | None => []
                          end ++ [(Child, Exit_ 0)]
                   end ++
                   [(Parent, Tcsetattr TTYFD Otty ot);
                    (Parent, Write_ TTYFD (bytes ("Exiting" ++ LF)));
                    (Parent, Exit_ 0)]) Hs _ _ _ _)
    end.
    + unfold kill, deliver, do_term, tcsetattr, sys_write, emit.
      destruct ch; simpl; try destruct lg; reflexivity.
    + unfold kill, deliver, do_term, tcsetattr, sys_write, emit.
      destruct ch; simpl; try destruct lg; simpl;
        rewrite <- ?app_assoc; reflexivity.
    + destruct ch, lg, b; reflexivity.
    + destruct ch, lg; reflexivity.
Qed.

Lemma rx_xfer_keeps (inp : list rd) (w : world) :
  since w0 true 0 w -> keeps w0 true inp (rx_xfer external cfg inp w).
Proof.
  intros Hs. unfold rx_xfer.
  destruct (proto cfg =? PROTO_RX).
  { apply (keeps_bind w0 true true);
      [apply prompt_read_keeps; exact Hs|].
    intros fname rest w' _ Hs'. apply keeps_act, since_system, Hs'. }
  destruct (proto cfg =? PROTO_RY); [apply keeps_act, since_system, Hs|].
  destruct (proto cfg =? PROTO_RZ); [apply keeps_act, since_system, Hs|].
  apply keeps_act, since_emit; auto.
Qed.

Lemma tx_xfer_keeps (inp : list rd) (w : world) :
  since w0 true 0 w -> keeps w0 true inp (tx_xfer external cfg inp w).
Proof.
  intros Hs. unfold tx_xfer.
  apply (keeps_bind w0 true true); [apply prompt_read_keeps; exact Hs|].
  intros fname rest w' _ Hs'.
  destruct (proto cfg =? PROTO_RX); [apply keeps_act, since_system, Hs'|].
  destruct (proto cfg =? PROTO_RY); [apply keeps_act, since_system, Hs'|].
  destruct (proto cfg =? PROTO_RZ); [apply keeps_act, since_system, Hs'|].
  destruct (proto cfg =? PROTO_TXT); [apply keeps_act, since_system, Hs'|].
  apply keeps_act, since_emit; auto.
Qed.

Lemma proto_xfer_keeps (inp : list rd) : forall w,
  since w0 true 0 w -> keeps w0 true inp (proto_xfer tb external cfg inp w).
Proof.
  induction inp as [|r rest IH]; intros w Hs.
  - simpl. eauto.
  - destruct r as [x| |]; cbn [proto_xfer].
    + destruct (mask7 x =? PROTO_CHAR).
      * simpl. split; [lia|]. apply since_write, Hs.
      * apply (keeps_shorter w0 true rest); [simpl; lia|].
        apply (keeps_bind w0 true true).
        { destruct ((mask7 x =? chr "q") || (mask7 x =? chr "Q")).
          - apply (done_keeps true true); exact Hs.
          - simpl. split; [lia | exact Hs]. }
        intros _ rest1 w1 _ Hs1. cbv zeta.
        destruct ((mask7 x =? chr "r") || (mask7 x =? chr "R")).
        { apply (keeps_bind w0 true true);
            [apply rx_xfer_keeps; exact Hs1|].
          intros _ rest2 w2 _ Hs2.
          apply keeps_act, since_setup_serial, Hs2. }
        destruct ((mask7 x =? chr "s") || (mask7 x =? chr "S") ||
                  (mask7 x =? chr "t") || (mask7 x =? chr "T")).
        { apply (keeps_bind w0 true true);
            [apply tx_xfer_keeps; exact Hs1|].
          intros _ rest2 w2 _ Hs2.
          apply keeps_act, since_setup_serial, Hs2. }
        apply keeps_act, since_write, Hs1.
    + apply (keeps_shorter w0 true rest); [simpl; lia|]. apply IH, Hs.
    + simpl. eauto.
Qed.

Lemma uplink_keeps (fuel : nat) : forall inp w,
  (List.length inp < fuel)%nat ->
  since w0 false 0 w ->
  keeps w0 false inp (uplink tb external cfg fuel inp w).
Proof.
  induction fuel as [|fuel IH]; intros inp w Hfuel Hs; [lia|].
  destruct inp as [|[x| |] rest]; cbn [uplink].
  - simpl. eauto.
  - simpl in Hfuel.
    apply (keeps_shorter w0 false rest); [simpl; lia|].
    destruct (mask7 x =? PROTO_CHAR).
    + apply (keeps_bind w0 true false).
      { apply keeps_act. apply (since_kill false SIGUSR1); [discriminate|].
        exact Hs. }
      intros _ rest1 w1 Hl1 Hs1.
      apply (keeps_bind w0 true false);
        [apply proto_xfer_keeps; exact Hs1|].
      intros _ rest2 w2 Hl2 Hs2.
      apply (keeps_bind w0 false false).
      { apply keeps_act. apply (since_kill true SIGUSR2); [discriminate|].
        exact Hs2. }
      intros _ rest3 w3 Hl3 Hs3. apply IH; [lia | exact Hs3].
    + apply (keeps_bind w0 false false).
      { apply keeps_act, since_write, Hs. }
      intros _ rest1 w1 Hl1 Hs1. apply IH; [lia | exact Hs1].
  - apply (done_keeps false false); exact Hs.
  - apply (keeps_shorter w0 false rest); [simpl; lia|].
    apply (keeps_bind w0 false false).
    { apply keeps_act, since_emit; auto. }
    intros _ rest1 w1 _ Hs1. apply (done_keeps false false); exact Hs1.
Qed.

Lemma uplink_never_returns (fuel : nat) : forall inp w a rest w',
  uplink tb external cfg fuel inp w <> Ret a rest w'.
Proof.
  induction fuel as [|fuel IH]; intros inp w a rest' w' H; [discriminate|].
  destruct inp as [|[x| |] rest]; cbn [uplink] in H; try discriminate.
  destruct (mask7 x =? PROTO_CHAR).
  - apply bind_ret_inv in H. destruct H as (? & ? & ? & _ & H).
    apply bind_ret_inv in H. destruct H as (? & ? & ? & _ & H).
    apply bind_ret_inv in H. destruct H as (? & ? & ? & _ & H).
    exact (IH _ _ _ _ _ H).
  - apply bind_ret_inv in H. destruct H as (? & ? & ? & _ & H).
    exact (IH _ _ _ _ _ H).
Qed.

End Keeps.

(** ** Restoring the terminal *)

Lemma startup_forked (tb : termbits) (cfg : config) (inp : list rd)
      (w : world) :
  exists w1,
    startup tb cfg true inp w = Ret tt inp w1 /\
    otty w1 = tty_attr w /\
    child w1 = CRunning /\
    exists evs, trace w1 = trace w ++ evs /\
                count is_restore evs = 0%nat /\
                handshake false evs = Some false.
Proof.
  eexists. split; [reflexivity|]. split; [reflexivity|].
  split; [reflexivity|].
  exists [(Parent, Tcsetattr TTYFD Ntty (raw_mode tb (tty_attr w)));
          (Parent, Tcsetattr RS232 Ext (serial_mode tb cfg (line_attr w)));
          (Parent, Fcntl_setfl RS232 (bic (line_fl w) (O_NDELAY tb)));
          (Child, Write_ TTYFD boot_msg)].
  split; [|split; reflexivity].
  unfold setup_serial, tcsetattr, sys_write, emit. simpl.
  rewrite <- !app_assoc. reflexivity.
Qed.

(** C3, as amended.  Whenever the parent exits after a successful start,
    which it does only through [done] (after [q], at the end of the
    keyboard input, after a failed read of the keyboard), its status is 0,
    the terminal has the settings it had when the program started, and
    they were restored exactly once; as long as the parent has not exited
    they were not restored.  The loop neither returns nor runs out of
    turns. *)
Theorem restored_once_on_exit (tb : termbits)
        (external : list Z -> termios -> termios) (cfg : config)
        (inp : list rd) (w : world) :
  match term_main tb external cfg true inp w with
  | Exited st w' =>
      st = 0 /\ tty_attr w' = tty_attr w /\
      exists evs, trace w' = trace w ++ evs /\
                  count is_restore evs = 1%nat
  | Blocked w' | Undef w' =>
      exists evs, trace w' = trace w ++ evs /\
                  count is_restore evs = 0%nat
  | Ret _ _ _ => False
  | NoFuel => False
  end.
Proof.
  unfold term_main, bind.
  destruct (startup_forked tb cfg inp w)
    as (w1 & -> & Ho & _ & evs1 & Ht1 & Hc1 & _).
  pose proof (uplink_keeps tb external cfg w1 (S (List.length inp)) inp w1
                (Nat.lt_succ_diag_r _) (since_refl w1)) as Hk.
  pose proof (uplink_never_returns tb external cfg
                (S (List.length inp)) inp w1) as Hn.
  unfold main_loop.
  destruct (uplink tb external cfg (S (List.length inp)) inp w1)
    as [a rest w'|st w'|w'|w'|]; simpl in Hk.
  - exact (Hn _ _ _ eq_refl).
  - destruct Hk as (-> & Hty & b' & _ & evs & Ht & Hc & _).
    split; [reflexivity|]. split; [congruence|].
    exists (evs1 ++ evs). rewrite Ht, Ht1, <- app_assoc, count_app, Hc1, Hc.
    auto.
  - destruct Hk as (b' & _ & evs & Ht & Hc & _).
    exists (evs1 ++ evs). rewrite Ht, Ht1, <- app_assoc, count_app, Hc1, Hc.
    auto.
  - destruct Hk as (b' & _ & evs & Ht & Hc & _).
    exists (evs1 ++ evs). rewrite Ht, Ht1, <- app_assoc, count_app, Hc1, Hc.
    auto.
  - exact Hk.
Qed.

(** The program does exit: here by control-Z and [q], with a log. *)
Example quit_restores_terminal :
  exists w',
    term_main linux_bits polite default_cfg true
      [RByte 104; RByte 26; RByte 113] (boot_world true) = Exited 0 w' /\
    tty_attr w' = cooked /\
    count is_restore (trace w') = 1%nat /\
    log_closed w' = true.
Proof.
  eexists. split; [vm_compute; reflexivity|].
  repeat split; vm_compute; reflexivity.
Qed.

(** C3, as first stated, fails.  When the child's read of the serial line
    fails, the child reports it and exits with status 1, and when the
    child is told to end by SIGTERM, it exits with status 0: either way
    without a call that restores the terminal, which stays as [main] set
    it, without echo. *)
Lemma child_exits_leave_terminal_raw :
  (let w := downlink [SErr] (live_world false) in
   child w = CExited 1 /\
   In (Child, Exit_ 1) (trace w) /\
   count is_restore (trace w) = 0%nat /\
   tty_attr w <> otty w /\
   Z.land (c_lflag (tty_attr w)) (ECHO linux_bits) = 0 /\
   Z.land (c_lflag (otty w)) (ECHO linux_bits) = ECHO linux_bits) /\
  (let w := deliver SIGTERM (live_world false) in
   child w = CExited 0 /\
   In (Child, Exit_ 0) (trace w) /\
   count is_restore (trace w) = 0%nat /\
   tty_attr w <> otty w).
Proof.
  split; cbv zeta.
  - repeat split; try (vm_compute; tauto); try reflexivity.
    vm_compute. discriminate.
  - repeat split; try (vm_compute; tauto); try reflexivity.
    vm_compute. discriminate.
Qed.

(** When [fork] fails, [main] exits with status 1 after it has put the
    terminal in raw mode, and does not restore it. *)
Lemma fork_failure_exit :
  exists w',
    term_main linux_bits polite default_cfg false [] (boot_world false)
      = Exited 1 w' /\
    count is_restore (trace w') = 0%nat /\
    tty_attr w' <> cooked.
Proof.
  eexists. split; [vm_compute; reflexivity|].
  split; [reflexivity|]. vm_compute. discriminate.
Qed.

(** ** The two signals *)

(** C9, as amended.  In every run of the parent's loop an external
    transfer program is started only after SIGUSR1 was sent to the child
    and before the SIGUSR2 that follows it: the calls made, read in order,
    keep the discipline of [handshake].  The parent sends the signals and
    goes on; it waits for no answer. *)
Theorem transfers_between_signals (tb : termbits)
        (external : list Z -> termios -> termios) (cfg : config)
        (inp : list rd) (w : world) :
  exists w' evs b,
    final (main_loop tb external cfg inp w) = Some w' /\
    trace w' = trace w ++ evs /\
    handshake false evs = Some b.
Proof.
  pose proof (uplink_keeps tb external cfg w (S (List.length inp)) inp w
                (Nat.lt_succ_diag_r _) (since_refl w)) as Hk.
  unfold main_loop.
  destruct (uplink tb external cfg (S (List.length inp)) inp w)
    as [a rest w'|st w'|w'|w'|]; simpl in *.
  - destruct Hk as (_ & _ & evs & Ht & _ & Hh). eauto 6.
  - destruct Hk as (_ & _ & b' & _ & evs & Ht & _ & Hh). eauto 6.
  - destruct Hk as (b' & _ & evs & Ht & _ & Hh). eauto 6.
  - destruct Hk as (b' & _ & evs & Ht & _ & Hh). eauto 6.
  - contradiction.
Qed.

(** C9, as first stated, fails.  With the child gone (its read of the
    serial line had failed), control-Z and [r] still run the receiving
    program: SIGUSR1 reaches no one, the child is not waiting in
    [pause()], and the parent, which looks at no answer, starts the
    transfer. *)
Lemma transfer_without_paused_child :
  child orphaned_world = CExited 1 /\
  child (kill SIGUSR1 orphaned_world) <> CPaused /\
  exists w',
    main_loop linux_bits polite default_cfg [RByte 26; RByte 114]
      orphaned_world = Blocked w' /\
    In (Parent, System (bytes "lrz")) (trace w') /\
    child w' = CExited 1.
Proof.
  split; [reflexivity|]. split; [vm_compute; discriminate|].
  eexists. split; [vm_compute; reflexivity|].
  split; [vm_compute; tauto | reflexivity].
Qed.

(** ** Runs of the whole program *)

(** With the raw-keyboard flag a newline goes to the serial line as it
    is. *)
Example raw_keyboard_newline :
  exists w',
    main_loop linux_bits polite with_raw_kbd [RByte 10; RByte 138]
      (live_world false) = Blocked w' /\
    written RS232 (trace w') = [10; 10].
Proof. eexists. split; vm_compute; reflexivity. Qed.

(** A receive with xmodem asks for the file name, runs [lrx] on it between
    the two signals and sets the serial line up again, whatever the
    program left: here the line comes back in its raw mode and without
    the parity the program had set, and the child is in its loop again. *)
Example xmodem_receive :
  exists w',
    main_loop linux_bits rude (with_proto PROTO_RX)
      [RByte 26; RByte 114; RByte 102; RByte 13] (live_world false)
      = Blocked w' /\
    skipn 4 (trace w') =
      [(Parent, Kill SIGUSR1);
       (Parent, Write_ TTYFD (bytes "Receive file: "));
       (Parent, Write_ TTYFD [102]);
       (Parent, Write_ TTYFD [13]);
       (Parent, System (bytes "lrx f"));
       (Parent, Tcsetattr RS232 Ext (line_attr w'));
       (Parent, Fcntl_setfl RS232 2);
       (Parent, Kill SIGUSR2)] /\
    c_lflag (line_attr w') = 35376 /\
    c_cflag (line_attr w') = 2048 + 48 /\
    child w' = CRunning.
Proof. eexists. split; [|repeat split]; vm_compute; reflexivity. Qed.

(** A send of plain text runs [cat] on the file name typed. *)
Example text_send :
  exists w',
    main_loop linux_bits polite (with_proto PROTO_TXT)
      [RByte 26; RByte 116; RByte 97; RByte 46; RByte 99; RByte 10]
      (live_world false) = Blocked w' /\
    In (Parent, System (bytes "cat a.c")) (trace w').
Proof. eexists. split; [vm_compute; reflexivity | vm_compute; tauto]. Qed.

(** A receive of plain text is refused, and the serial line is set up
    again all the same. *)
Example text_receive_refused :
  exists w',
    main_loop linux_bits polite (with_proto PROTO_TXT)
      [RByte 26; RByte 82] (live_world false) = Blocked w' /\
    count is_system (trace w') = 0%nat /\
    count (is_kill SIGUSR2) (trace w') = 1%nat /\
    child w' = CRunning.
Proof. eexists. split; [|repeat split]; vm_compute; reflexivity. Qed.

(** * Further properties *)

(** ** The child's loop, on any run of reads *)

Lemma payload_range (rs : list srd) :
  Forall (fun b => 0 <= b < 128) (payload rs).
Proof.
  induction rs as [|[bs| |] rs IH]; simpl; auto.
  apply Forall_app. split; [apply mask7_all_range | exact IH].
Qed.

Lemma downlink_stopped (rs : list srd) (w : world) :
  child w <> CRunning -> downlink rs w = w.
Proof.
  intros H. destruct rs; simpl; [reflexivity|].
  destruct (child w); congruence.
Qed.

Lemma downlink_app (rs1 : list srd) : forall (rs2 : list srd) (w : world),
  child w = CRunning -> no_error rs1 = true ->
  downlink (rs1 ++ rs2) w = downlink rs2 (downlink rs1 w) /\
  child (downlink rs1 w) = CRunning.
Proof.
  induction rs1 as [|r rs1 IH]; intros rs2 w Hrun Hok.
  - simpl. auto.
  - cbn [app]. rewrite !downlink_cons by assumption.
    destruct r as [bs| |]; simpl in Hok; try discriminate.
    + apply IH; [|assumption].
      destruct (downlink_body_block bs w) as (_ & _ & Hc). congruence.
    + apply IH; assumption.
Qed.

(** X1.  Whatever the child's reads return (blocks, interruptions, an
    error) and whatever state the child is in, what its loop writes to the
    terminal is what it appends to the log, when there is one, and every
    byte of it is below 128; nothing is written to the serial line. *)
Theorem downlink_log_mirrors_terminal (rs : list srd) : forall w : world,
  exists out : list Z,
    written TTYFD (trace (downlink rs w)) = written TTYFD (trace w) ++ out /\
    logfp (downlink rs w) = option_map (fun l => l ++ out) (logfp w) /\
    Forall (fun b => 0 <= b < 128) out /\
    written RS232 (trace (downlink rs w)) = written RS232 (trace w).
Proof.
  induction rs as [|r rs IH]; intros w.
  - exists []. simpl. rewrite app_nil_r.
    destruct (logfp w); simpl; rewrite ?app_nil_r; auto.
  - destruct (child w) eqn:Hc.
    + rewrite downlink_cons by assumption.
      destruct (IH (downlink_body r w)) as (out & Ht & Hl & Hr & Hs).
      destruct r as [bs| |].
      * destruct (downlink_body_block bs w) as (Hbt & Hbl & _).
        exists (map mask7 bs ++ out).
        rewrite Ht, Hl, Hs, Hbt, Hbl, !written_app.
        split; [|split; [|split]].
        -- rewrite <- app_assoc. f_equal.
           destruct (logfp w); simpl; rewrite ?app_nil_r; reflexivity.
        -- destruct (logfp w); simpl; [rewrite <- app_assoc|]; reflexivity.
        -- apply Forall_app. split; [apply mask7_all_range | exact Hr].
        -- destruct (logfp w); simpl; rewrite ?app_nil_r; reflexivity.
      * exists out. auto.
      * exists out. rewrite Ht, Hl, Hs. simpl. rewrite !written_app. simpl.
        rewrite !app_nil_r. auto.
    + rewrite downlink_stopped by congruence.
      exists []. rewrite app_nil_r.
      destruct (logfp w); simpl; rewrite ?app_nil_r; auto.
    + rewrite downlink_stopped by congruence.
      exists []. rewrite app_nil_r.
      destruct (logfp w); simpl; rewrite ?app_nil_r; auto.
Qed.

(** X3.  After a read that fails with an error other than EINTR the child
    is gone with status 1: it has reported the error and exited, the
    terminal and the log hold what was relayed before the error and
    nothing more, and no later read is made. *)
Theorem downlink_stops_at_error (rs1 rs2 : list srd) (w : world) :
  child w = CRunning -> no_error rs1 = true ->
  let before := downlink rs1 w in
  let w' := downlink (rs1 ++ SErr :: rs2) w in
  w' = downlink (rs1 ++ [SErr]) w /\
  child w' = CExited 1 /\
  trace w' = trace before ++ [(Child, Perror "child"); (Child, Exit_ 1)] /\
  written TTYFD (trace w') = written TTYFD (trace before) /\
  logfp w' = logfp before.
Proof.
  intros Hrun Hok before w'. subst before w'.
  destruct (downlink_app rs1 (SErr :: rs2) w Hrun Hok) as (E1 & Hc).
  destruct (downlink_app rs1 [SErr] w Hrun Hok) as (E2 & _).
  rewrite E1, E2, !downlink_cons by assumption.
  rewrite downlink_stopped by (simpl; discriminate).
  cbn [downlink].
  split; [reflexivity|]. split; [reflexivity|].
  cbn [downlink_body set_child emit set_trace trace logfp].
  rewrite <- app_assoc, written_app. simpl. rewrite app_nil_r.
  repeat split.
Qed.

Lemma downlink_stops_at_error_witness :
  let w' := downlink [SBlock [200]; SErr; SBlock [66]] (live_world true) in
  child w' = CExited 1 /\
  logfp w' = logfp (downlink [SBlock [200]] (live_world true)).
Proof.
  destruct (downlink_stops_at_error [SBlock [200]] [SBlock [66]]
              (live_world true)) as (_ & Hc & _ & _ & Hl);
    [reflexivity | reflexivity |].
  split; [exact Hc | exact Hl].
Defined.

Lemma resume_after_pause (w : world) :
  child w = CRunning -> deliver SIGUSR2 (deliver SIGUSR1 w) = w.
Proof.
  destruct w as [tr ta la fl ot lg lc ch]. simpl. intros ->. reflexivity.
Qed.

(** X4.  A child stopped by SIGUSR1 takes no read until SIGUSR2 comes, and
    then goes on as if it had never stopped: the reads before the pause and
    the reads after it are relayed as one run, nothing lost and nothing
    twice. *)
Theorem downlink_pause_keeps_stream (rs1 rsx rs2 : list srd) (w : world) :
  child w = CRunning -> no_error rs1 = true ->
  let paused := deliver SIGUSR1 (downlink rs1 w) in
  downlink rsx paused = paused /\
  downlink rs2 (deliver SIGUSR2 (downlink rsx paused)) =
    downlink (rs1 ++ rs2) w.
Proof.
  intros Hrun Hok paused.
  destruct (downlink_app rs1 rs2 w Hrun Hok) as (E & Hc).
  assert (Hp : child paused = CPaused).
  { subst paused. unfold deliver. rewrite Hc. reflexivity. }
  assert (Hx : downlink rsx paused = paused).
  { apply downlink_stopped. congruence. }
  split; [exact Hx|].
  rewrite Hx, E. subst paused. rewrite resume_after_pause by assumption.
  reflexivity.
Qed.

Lemma downlink_pause_keeps_stream_witness :
  downlink [SBlock [67]]
    (deliver SIGUSR2
       (downlink [SBlock [66]]
          (deliver SIGUSR1 (downlink [SBlock [65]] (live_world true))))) =
  downlink [SBlock [65]; SBlock [67]] (live_world true).
Proof.
  destruct (downlink_pause_keeps_stream [SBlock [65]] [SBlock [66]]
              [SBlock [67]] (live_world true)) as (_ & H);
    [reflexivity | reflexivity |].
  exact H.
Defined.

Lemma downlink_relays_stream_witness :
  logfp (downlink [SBlock [200; 65]; SEintr; SBlock [10]] (live_world true))
  = Some [72; 65; 10].
Proof.
  destruct (downlink_relays_stream [SBlock [200; 65]; SEintr; SBlock [10]]
              (live_world true)) as (_ & Hl & _);
    [reflexivity | reflexivity |].
  exact Hl.
Defined.

(** ** The modes of the line and of the terminal *)

Lemma serial_mode_contract_witness :
  let t := serial_mode linux_bits default_cfg fresh_line in
  nth 5 (c_cc t) 0 = 1 /\ nth 6 (c_cc t) 0 = BUFSIZE /\
  Z.land (c_cflag t) 256 = 0.
Proof.
  destruct (serial_mode_contract linux_bits default_cfg fresh_line)
    as (_ & _ & _ & _ & _ & Ht & Hm & Hp).
  split; [apply Ht; simpl; lia|].
  split; [apply Hm; simpl; [lia | discriminate] | apply Hp; reflexivity].
Defined.

Lemma bic_idem (x m : Z) : bic (bic x m) m = bic x m.
Proof. unfold bic. rewrite <- Z.land_assoc, Z.land_diag. reflexivity. Qed.

Lemma array_set_again (i : nat) (u v : Z) (a : list Z) :
  array_set i v (array_set i u a) = array_set i v a.
Proof.
  revert i; induction a as [|x a IH]; intros [|i]; simpl; congruence.
Qed.

Lemma array_set_swap (i j : nat) (u v : Z) (a : list Z) :
  i <> j ->
  array_set i v (array_set j u a) = array_set j u (array_set i v a).
Proof.
  revert i j; induction a as [|x a IH]; intros [|i] [|j] H; simpl;
    try congruence.
  f_equal. apply IH. congruence.
Qed.

Lemma termios_eq (s t : termios) :
  c_iflag s = c_iflag t -> c_oflag s = c_oflag t ->
  c_cflag s = c_cflag t -> c_lflag s = c_lflag t ->
  c_cc s = c_cc t -> c_ispeed s = c_ispeed t -> c_ospeed s = c_ospeed t ->
  s = t.
Proof.
  destruct s, t; simpl; intros; subst; reflexivity.
Qed.

Lemma serial_mode_again (cfg : config) (t : termios) :
  serial_mode linux_bits cfg (serial_mode linux_bits cfg t) =
  serial_mode linux_bits cfg t.
Proof.
  apply termios_eq.
  - reflexivity.
  - unfold serial_mode.
    destruct (seven_bits cfg), (parodd cfg), (pareven cfg); simpl;
      apply bic_idem.
  - unfold serial_mode.
    destruct (seven_bits cfg), (parodd cfg), (pareven cfg); simpl; bitwise.
  - unfold serial_mode.
    destruct (seven_bits cfg), (parodd cfg), (pareven cfg); simpl;
      apply bic_idem.
  - assert (H : forall a,
               array_set 5 1 (array_set 6 BUFSIZE
                 (array_set 5 1 (array_set 6 BUFSIZE a))) =
               array_set 5 1 (array_set 6 BUFSIZE a)).
    { intros a.
      rewrite (array_set_swap 6 5 1 BUFSIZE) by discriminate.
      rewrite !array_set_again. reflexivity. }
    unfold serial_mode.
    destruct (seven_bits cfg), (parodd cfg), (pareven cfg); simpl; apply H.
  - unfold serial_mode.
    destruct (seven_bits cfg), (parodd cfg), (pareven cfg); reflexivity.
  - unfold serial_mode.
    destruct (seven_bits cfg), (parodd cfg), (pareven cfg); reflexivity.
Qed.

(** X7.  With the constants of Linux, [setup_serial] may be called again at
    any time: a second call right after a first leaves the settings and the
    file status flags of the line as the first call made them. *)
Theorem setup_serial_idempotent (cfg : config) (w : world) :
  let once := setup_serial linux_bits cfg w in
  let twice := setup_serial linux_bits cfg once in
  line_attr twice = line_attr once /\
  line_fl twice = line_fl once /\
  tty_attr twice = tty_attr w /\
  child twice = child w.
Proof.
  cbv zeta. unfold setup_serial, tcsetattr, emit; simpl.
  split; [apply serial_mode_again|].
  split; [apply bic_idem|]. split; reflexivity.
Qed.

(** X8.  At its start [main] keeps the terminal's settings in [otty] and
    puts the terminal in raw mode, whatever the header's constants: no
    echo, no canonical input, no signal characters, no output processing,
    no input processing, reads that return each byte as it comes (VMIN 1,
    VTIME 0); the control flags and the speeds of the terminal stay as
    they were.  The serial line is set up by [setup_serial], and the child
    is in its loop. *)
Theorem startup_raw_mode (tb : termbits) (cfg : config) (inp : list rd)
        (w : world) :
  exists w1,
    startup tb cfg true inp w = Ret tt inp w1 /\
    otty w1 = tty_attr w /\
    let t := tty_attr w1 in
    Z.land (c_lflag t) (Z.lor (Z.lor (ECHO tb) (ICANON tb)) (ISIG tb)) = 0 /\
    Z.land (c_oflag t) (OPOST tb) = 0 /\
    c_iflag t = 0 /\
    ((VTIME tb < List.length (c_cc (tty_attr w)))%nat ->
     nth (VTIME tb) (c_cc t) 0 = 0) /\
    ((VMIN tb < List.length (c_cc (tty_attr w)))%nat ->
     VMIN tb <> VTIME tb -> nth (VMIN tb) (c_cc t) 0 = 1) /\
    c_cflag t = c_cflag (tty_attr w) /\
    c_ispeed t = c_ispeed (tty_attr w) /\
    c_ospeed t = c_ospeed (tty_attr w) /\
    line_attr w1 = serial_mode tb cfg (line_attr w) /\
    child w1 = CRunning.
Proof.
  eexists. split; [reflexivity|]. split; [reflexivity|].
  cbv zeta. simpl.
  repeat split; auto using land_bic_same.
  - intros H. apply nth_array_set_same. rewrite length_array_set. exact H.
  - intros H Hne. rewrite nth_array_set_other by congruence.
    apply nth_array_set_same. exact H.
Qed.

Lemma startup_raw_mode_witness :
  exists w1,
    startup linux_bits default_cfg true [] (boot_world false)
      = Ret tt [] w1 /\
    nth 6 (c_cc (tty_attr w1)) 0 = 1 /\
    nth 5 (c_cc (tty_attr w1)) 0 = 0.
Proof.
  destruct (startup_raw_mode linux_bits default_cfg [] (boot_world false))
    as (w1 & Hs & _ & _ & _ & _ & Ht & Hm & _).
  exists w1. split; [exact Hs|]. split.
  - apply Hm; [simpl; lia | discriminate].
  - apply Ht. simpl; lia.
Defined.

(** X17.  When [fork] fails, [main] reports it and exits with status 1
    after it has put the terminal in raw mode and set up the line: the
    terminal is left in raw mode, with no call that restores it, whatever
    the options and the keyboard input. *)
Theorem fork_failure_leaves_raw (tb : termbits)
        (external : list Z -> termios -> termios) (cfg : config)
        (inp : list rd) (w : world) :
  exists w',
    term_main tb external cfg false inp w = Exited 1 w' /\
    tty_attr w' = raw_mode tb (tty_attr w) /\
    line_attr w' = serial_mode tb cfg (line_attr w) /\
    exists evs,
      trace w' = trace w ++ evs /\
      count is_restore evs = 0%nat /\
      written TTYFD evs = [] /\ written RS232 evs = [] /\
      In (Parent, Perror "child fork") evs.
Proof.
  eexists. split; [reflexivity|]. split; [reflexivity|].
  split; [reflexivity|].
  exists [(Parent, Tcsetattr TTYFD Ntty (raw_mode tb (tty_attr w)));
          (Parent, Tcsetattr RS232 Ext (serial_mode tb cfg (line_attr w)));
          (Parent, Fcntl_setfl RS232 (bic (line_fl w) (O_NDELAY tb)));
          (Parent, Perror "child fork"); (Parent, Exit_ 1)].
  split.
  - unfold setup_serial, tcsetattr, emit. simpl.
    rewrite <- !app_assoc. reflexivity.
  - repeat split; simpl; auto.
Qed.

(** ** prompt_read, on any input *)

Lemma prompt_read_short_witness :
  exists w',
    prompt_read "Send file: " 60 (map RByte [97; 225; 98] ++ RByte 13 :: [REof])
      (live_world false) = Ret [97; 97; 98] [REof] w'.
Proof.
  eexists.
  apply (prompt_read_short "Send file: " 60 [97; 225; 98] 13 [REof]
           (live_world false)).
  - repeat constructor; vm_compute; discriminate.
  - vm_compute. intros [_ H]. apply H. reflexivity.
  - simpl. lia.
Defined.

Lemma prompt_read_long_witness :
  exists w',
    prompt_read "Send file: " 4 (map RByte [97; 98; 99; 100] ++ RByte 10 :: [])
      (live_world false) = Ret [97; 98] [] w'.
Proof.
  eexists.
  apply (prompt_read_long "Send file: " 4 [97; 98; 99; 100] 10 []
           (live_world false)).
  - repeat constructor; vm_compute; discriminate.
  - vm_compute. intros [H _]. apply H. reflexivity.
  - lia.
  - simpl. lia.
Defined.

Lemma length_removelast (l : list Z) :
  List.length (removelast l) = pred (List.length l).
Proof.
  induction l as [|x [|y l] IH]; simpl in *; auto.
Qed.

Lemma prompt_loop_bounds (L : Z) (inp : list rd) :
  1 <= L ->
  forall (c : option Z) (stored : list Z) (len : Z) (w : world),
  0 <= len -> Z.of_nat (List.length stored) + len = L ->
  (c <> None -> stored <> []) ->
  match prompt_loop inp c stored len w with
  | Ret fname rest _ =>
      Z.of_nat (List.length fname) <= L - 1 /\
      (List.length rest < List.length inp)%nat
  | Undef _ =>
      c = None /\ exists k rest, inp = repeat REof k ++ RErr :: rest
  | Blocked _ => True
  | Exited _ _ | NoFuel => False
  end.
Proof.
  intros HL. induction inp as [|r rest IH]; intros c stored len w Hlen Hsum Hc.
  - exact I.
  - assert (Hbyte : forall v,
      match (let c := mask7 v in
             let w := sys_write Parent TTYFD [c] w in
             let stored' := if len =? 0 then stored else stored ++ [c] in
             let len' := if len =? 0 then len else len - 1 in
             if negb (c =? 10) && negb (c =? 13)
             then prompt_loop rest (Some c) stored' len' w
             else match stored' with
                  | [] => Undef w
                  | _ => Ret (removelast stored') rest w
                  end) with
      | Ret fname rest' _ =>
          Z.of_nat (List.length fname) <= L - 1 /\
          (List.length rest' < List.length (r :: rest))%nat
      | Undef _ => False
      | Blocked _ => True
      | Exited _ _ | NoFuel => False
      end).
    { intros v. cbv zeta.
      set (stored' := if len =? 0 then stored else stored ++ [mask7 v]).
      set (len' := if len =? 0 then len else len - 1).
      assert (H1 : 0 <= len' /\
                   Z.of_nat (List.length stored') + len' = L /\
                   stored' <> []).
      { subst stored' len'. destruct (Z.eqb_spec len 0) as [E|E].
        - repeat split; try lia. intros ->. simpl in Hsum. lia.
        - rewrite length_app. simpl. repeat split; try lia.
          intros H. apply app_eq_nil in H. destruct H; discriminate. }
      destruct H1 as (Hl' & Hs' & Hne).
      destruct (negb (mask7 v =? 10) && negb (mask7 v =? 13)).
      - specialize (IH (Some (mask7 v)) stored' len'
                       (sys_write Parent TTYFD [mask7 v] w) Hl' Hs'
                       (fun _ => Hne)).
        destruct (prompt_loop rest (Some (mask7 v)) stored' len'
                    (sys_write Parent TTYFD [mask7 v] w)); auto.
        + destruct IH. split; [assumption | simpl; lia].
        + destruct IH as [H _]. discriminate.
      - destruct stored' as [|x l] eqn:E; [congruence|].
        rewrite length_removelast. cbn [List.length pred] in *.
        split; lia. }
    destruct r as [x| |]; cbn [prompt_loop].
    + specialize (Hbyte x).
      match goal with
      | H : match ?o with _ => _ end |- match ?o' with _ => _ end =>
          change o' with o; destruct o; auto; contradiction
      end.
    + specialize (IH c stored len w Hlen Hsum Hc).
      destruct (prompt_loop rest c stored len w); auto.
      * destruct IH. split; [assumption | simpl; lia].
      * destruct IH as (Hn & k & rest' & ->). split; [assumption|].
        exists (S k), rest'. reflexivity.
    + destruct c as [v|].
      * specialize (Hbyte v).
        match goal with
        | H : match ?o with _ => _ end |- match ?o' with _ => _ end =>
            change o' with o; destruct o; auto; contradiction
        end.
      * split; [reflexivity|]. exists O, rest. reflexivity.
Qed.

(** X11.  With a buffer of two bytes or more, whatever comes from the
    keyboard, [prompt_read] stays inside its buffer: the file name it
    returns has at most [len - 2] bytes, so that name and NUL fit, it has
    read at least one byte, and the NUL is never stored in front of the
    buffer.  The one way it goes wrong is a first read that fails, which
    leaves [c] without a value. *)
Theorem prompt_read_in_bounds (prompt : string) (len : Z) (inp : list rd)
        (w : world) :
  2 <= len ->
  match prompt_read prompt len inp w with
  | Ret fname rest _ =>
      Z.of_nat (List.length fname) <= len - 2 /\
      (List.length rest < List.length inp)%nat
  | Undef _ => exists k rest, inp = repeat REof k ++ RErr :: rest
  | Blocked _ => True
  | Exited _ _ | NoFuel => False
  end.
Proof.
  intros Hlen. unfold prompt_read.
  pose proof (prompt_loop_bounds (len - 1) inp ltac:(lia) None [] (len - 1)
                (sys_write Parent TTYFD (bytes prompt) w)
                ltac:(lia) ltac:(simpl; lia) ltac:(congruence)) as H.
  destruct (prompt_loop inp None [] (len - 1)
              (sys_write Parent TTYFD (bytes prompt) w)); auto.
  - destruct H. split; [lia | assumption].
  - destruct H as (_ & H). exact H.
Qed.

Lemma prompt_read_in_bounds_witness :
  match prompt_read "Receive file: " 60 [REof; RErr] (live_world false) with
  | Undef _ => exists k rest, [REof; RErr] = repeat REof k ++ RErr :: rest
  | _ => False
  end.
Proof.
  exact (prompt_read_in_bounds "Receive file: " 60 [REof; RErr]
           (live_world false) ltac:(lia)).
Defined.

(** ** rx_xfer and tx_xfer *)




Lemma prompt_read_line (prompt : string) (ks : list Z) (t : Z)
      (rest : list rd) (w : world) :
  Forall in_line ks -> ~ in_line t -> (List.length ks < 59)%nat ->
  prompt_read prompt 60 (map RByte ks ++ RByte t :: rest) w =
  Ret (map mask7 ks) rest
      (echoed (ks ++ [t]) (sys_write Parent TTYFD (bytes prompt) w)).
Proof.
  intros Hks Ht Hlen. unfold prompt_read.
  rewrite prompt_loop_line by (assumption || lia).
  cbn [app]. rewrite firstn_all2.
  - rewrite map_app. cbn [map]. rewrite removelast_last.
    destruct (map mask7 ks); reflexivity.
  - rewrite length_map, length_app. simpl. lia.
Qed.



(** X14.  A receive.  With ymodem or zmodem [lry] or [lrz] is run at once
    and nothing is read from the keyboard; with the plain-text protocol no
    program is run and nothing is read: the complaint goes to the error
    stream; with xmodem the file name is asked for, and [lrx] is run on the
    line typed, masked to seven bits and cut at its first NUL byte. *)
Theorem rx_xfer_by_protocol (external : list Z -> termios -> termios)
        (cfg : config) (inp : list rd) (w : world) :
  (proto cfg = PROTO_RY ->
   rx_xfer external cfg inp w = Ret tt inp (system external (bytes "lry") w)) /\
  (proto cfg = PROTO_RZ ->
   rx_xfer external cfg inp w = Ret tt inp (system external (bytes "lrz") w)) /\
  (proto cfg = PROTO_TXT ->
   exists w',
     rx_xfer external cfg inp w = Ret tt inp w' /\
     trace w' = trace w ++
       [(Parent, Stderr
           (bytes ("Receive not supported with this protocol." ++ CR ++ LF)))]
     /\ line_attr w' = line_attr w) /\
  (proto cfg = PROTO_RX ->
   forall ks t rest,
     inp = map RByte ks ++ RByte t :: rest ->
     Forall in_line ks -> ~ in_line t -> (List.length ks < 59)%nat ->
     rx_xfer external cfg inp w =
     Ret tt rest
       (system external (bytes "lrx " ++ cstring (map mask7 ks))
          (echoed (ks ++ [t])
             (sys_write Parent TTYFD (bytes "Receive file: ") w)))).
Proof.
  unfold rx_xfer. repeat split.
  - intros ->. reflexivity.
  - intros ->. reflexivity.
  - intros ->. eexists. split; [reflexivity|]. split; reflexivity.
  - intros -> ks t rest -> Hks Ht Hlen. cbn [Z.eqb PROTO_RX Pos.eqb].
    unfold bind. rewrite prompt_read_line by assumption. reflexivity.
Qed.

Lemma rx_xfer_by_protocol_witness :
  exists w',
    rx_xfer polite (with_proto PROTO_RX)
      (map RByte [102; 0; 103] ++ RByte 13 :: []) (live_world false)
      = Ret tt [] w' /\
    In (Parent, System (bytes "lrx f")) (trace w').
Proof.
  destruct (rx_xfer_by_protocol polite (with_proto PROTO_RX)
              (map RByte [102; 0; 103] ++ RByte 13 :: [])
              (live_world false)) as (_ & _ & _ & H).
  eexists. split.
  - apply (H eq_refl [102; 0; 103] 13 []); [reflexivity| | |simpl; lia].
    + repeat constructor; vm_compute; discriminate.
    + vm_compute. intros [_ H']. apply H'. reflexivity.
  - vm_compute. tauto.
Defined.

(** ** What the parent's loop keeps of the child, the log and the terminal *)

Section Invariant.

Variable tb : termbits.
Variable external : list Z -> termios -> termios.
Variable cfg : config.

(** A property of the world kept by every call the parent makes outside
    [done]; the two signals switch it between its two sides. *)
Variable I : bool -> world -> Prop.
Hypothesis I_write :
  forall b f bs w, I b w -> I b (sys_write Parent f bs w).
Hypothesis I_system :
  forall cmd w, I true w -> I true (system external cmd w).
Hypothesis I_setup :
  forall w, I true w -> I true (setup_serial tb cfg w).
Hypothesis I_stderr :
  forall m w, I true w -> I true (emit (Parent, Stderr m) w).
Hypothesis I_perror :
  forall w, I false w -> I false (emit (Parent, Perror "parent") w).
Hypothesis I_pause : forall w, I false w -> I true (kill SIGUSR1 w).
Hypothesis I_resume : forall w, I true w -> I false (kill SIGUSR2 w).

Lemma holds_bind {A B} (b b2 : bool) (m : M A) (k : A -> M B)
      (inp : list rd) (w : world) :
  holds I b (m inp w) ->
  (forall a rest w', I b w' -> holds I b2 (k a rest w')) ->
  holds I b2 ((x <- m ;; k x) inp w).
Proof.
  intros Hm Hk. unfold bind.
  destruct (m inp w) as [a rest w'| | | |]; simpl in *; auto.
Qed.

Lemma holds_done (b b2 : bool) (rest : list rd) (w : world) :
  I b w -> holds I b2 (done rest w).
Proof.
  intros H. exists b, rest, w. split; [exact H | reflexivity].
Qed.

Lemma prompt_loop_holds (b : bool) (inp : list rd) :
  forall c stored len w,
    I b w -> holds I b (prompt_loop inp c stored len w).
Proof.
  induction inp as [|r rest IH]; intros c stored len w Hw.
  - simpl. eauto.
  - assert (Hbyte : forall v,
              holds I b
                (let c := mask7 v in
                 let w := sys_write Parent TTYFD [c] w in
                 let stored' := if len =? 0 then stored else stored ++ [c] in
                 let len' := if len =? 0 then len else len - 1 in
                 if negb (c =? 10) && negb (c =? 13)
                 then prompt_loop rest (Some c) stored' len' w
                 else match stored' with
                      | [] => Undef w
                      | _ => Ret (removelast stored') rest w
                      end)).
    { intros v. cbv zeta.
      pose proof (I_write b TTYFD [mask7 v] w Hw) as Hw'.
      destruct (negb (mask7 v =? 10) && negb (mask7 v =? 13)).
      - apply IH; exact Hw'.
      - destruct (if len =? 0 then stored else stored ++ [mask7 v]);
          simpl; eauto. }
    destruct r as [x| |]; cbn [prompt_loop].
    + apply (Hbyte x).
    + apply IH; exact Hw.
    + destruct c as [v|]; [apply (Hbyte v)|]. simpl. eauto.
Qed.

Lemma rx_xfer_holds (inp : list rd) (w : world) :
  I true w -> holds I true (rx_xfer external cfg inp w).
Proof.
  intros Hw. unfold rx_xfer.
  destruct (proto cfg =? PROTO_RX).
  { apply (holds_bind true true).
    - unfold prompt_read. apply prompt_loop_holds, I_write, Hw.
    - intros fname rest w' Hw'. simpl. apply I_system, Hw'. }
  destruct (proto cfg =? PROTO_RY); [simpl; apply I_system, Hw|].
  destruct (proto cfg =? PROTO_RZ); [simpl; apply I_system, Hw|].
  simpl. apply I_stderr, Hw.
Qed.

Lemma tx_xfer_holds (inp : list rd) (w : world) :
  I true w -> holds I true (tx_xfer external cfg inp w).
Proof.
  intros Hw. unfold tx_xfer.
  apply (holds_bind true true).
  - unfold prompt_read. apply prompt_loop_holds, I_write, Hw.
  - intros fname rest w' Hw'.
    destruct (proto cfg =? PROTO_RX); [simpl; apply I_system, Hw'|].
    destruct (proto cfg =? PROTO_RY); [simpl; apply I_system, Hw'|].
    destruct (proto cfg =? PROTO_RZ); [simpl; apply I_system, Hw'|].
    destruct (proto cfg =? PROTO_TXT); [simpl; apply I_system, Hw'|].
    simpl. apply I_stderr, Hw'.
Qed.

Lemma proto_xfer_holds (inp : list rd) : forall w,
  I true w -> holds I true (proto_xfer tb external cfg inp w).
Proof.
  induction inp as [|r rest IH]; intros w Hw.
  - simpl. eauto.
  - destruct r as [x| |]; cbn [proto_xfer].
    + destruct (mask7 x =? PROTO_CHAR).
      * simpl. apply I_write, Hw.
      * apply (holds_bind true true).
        { destruct ((mask7 x =? chr "q") || (mask7 x =? chr "Q")).
          - apply (holds_done true true); exact Hw.
          - exact Hw. }
        intros _ rest1 w1 Hw1. cbv zeta.
        destruct ((mask7 x =? chr "r") || (mask7 x =? chr "R")).
        { apply (holds_bind true true); [apply rx_xfer_holds, Hw1|].
          intros _ rest2 w2 Hw2. simpl. apply I_setup, Hw2. }
        destruct ((mask7 x =? chr "s") || (mask7 x =? chr "S") ||
                  (mask7 x =? chr "t") || (mask7 x =? chr "T")).
        { apply (holds_bind true true); [apply tx_xfer_holds, Hw1|].
          intros _ rest2 w2 Hw2. simpl. apply I_setup, Hw2. }
        simpl. apply I_write, Hw1.
    + apply IH, Hw.
    + simpl. eauto.
Qed.

Lemma uplink_holds (fuel : nat) : forall inp w,
  I false w -> holds I false (uplink tb external cfg fuel inp w).
Proof.
  induction fuel as [|fuel IH]; intros inp w Hw; [exact Logic.I|].
  destruct inp as [|[x| |] rest]; cbn [uplink].
  - simpl. eauto.
  - destruct (mask7 x =? PROTO_CHAR).
    + apply (holds_bind true false); [simpl; apply I_pause, Hw|].
      intros _ rest1 w1 Hw1.
      apply (holds_bind true false); [apply proto_xfer_holds, Hw1|].
      intros _ rest2 w2 Hw2.
      apply (holds_bind false false); [simpl; apply I_resume, Hw2|].
      intros _ rest3 w3 Hw3. apply IH, Hw3.
    + apply (holds_bind false false); [simpl; apply I_write, Hw|].
      intros _ rest1 w1 Hw1. apply IH, Hw1.
  - apply (holds_done false false); exact Hw.
  - apply (holds_bind false false); [simpl; apply I_perror, Hw|].
    intros _ rest1 w1 Hw1. apply (holds_done false false); exact Hw1.
Qed.

End Invariant.

Ltac world_fields :=
  repeat match goal with
         | w : world |- _ => destruct w
         end;
  unfold child_follows, kill, deliver, system, setup_serial, tcsetattr,
    sys_write, emit in *;
  simpl in *.










Lemma logfp_done (rest : list rd) (w w' : world) (st : Z) :
  done rest w = Exited st w' -> logfp w' = logfp w.
Proof.
  intros Hd. unfold done in Hd. inversion Hd; subst; clear Hd.
  destruct w as [tr ta la fl ot lg lc ch].
  unfold kill, deliver, do_term, tcsetattr, sys_write, emit.
  destruct ch; simpl; try destruct lg; reflexivity.
Qed.

(** X16.  Nothing the parent does, whatever is typed and whatever state
    the child is in, changes what is in the log: keyboard bytes, their
    echo at a prompt, the help message and the notices never reach it. *)
Theorem keyboard_never_logged (tb : termbits)
        (external : list Z -> termios -> termios) (cfg : config)
        (inp : list rd) (w : world) :
  match main_loop tb external cfg inp w with
  | Ret _ _ w' | Exited _ w' | Blocked w' | Undef w' => logfp w' = logfp w
  | NoFuel => False
  end.
Proof.
  assert (H : holds (fun _ w' => logfp w' = logfp w) false
                (uplink tb external cfg (S (List.length inp)) inp w)).
  { apply uplink_holds; try reflexivity;
      try (intros; world_fields; assumption).
    - intros w1 H1. destruct w1 as [tr ta la fl ot lg lc ch].
      unfold kill, deliver, emit in *. destruct ch; simpl in *; assumption.
    - intros w1 H1. destruct w1 as [tr ta la fl ot lg lc ch].
      unfold kill, deliver, emit in *. destruct ch; simpl in *; assumption. }
  pose proof (uplink_keeps tb external cfg w (S (List.length inp)) inp w
                (Nat.lt_succ_diag_r _) (since_refl w)) as Hk.
  unfold main_loop.
  destruct (uplink tb external cfg (S (List.length inp)) inp w)
    as [a rest w'|st w'|w'|w'|]; simpl in H; auto.
  - destruct H as (_ & rest & w1 & H1 & Hd).
    apply logfp_done in Hd. congruence.
  - destruct H as (_ & H). exact H.
  - destruct H as (_ & H). exact H.
Qed.



(** ** The options *)

Section OptionFacts.

Variable sp : speeds.
Variable fopen_ok : string -> bool.

(** One turn of the option loop that goes on: what each variable has
    become. *)
Lemma option_case_accepted (x : ascii) (optarg : string) (c c1 : config)
      (logs logs1 : list string) :
  option_case sp fopen_ok x optarg c logs = Accepted (c1, logs1) ->
  In x option_letters /\
  baud c1 = (if (x =? "s")%char
             then match speed_of sp optarg with
                  | Some b => b
                  | None => baud c
                  end
             else baud c) /\
  ((x =? "s")%char = true -> speed_of sp optarg <> None) /\
  proto c1 = (if (x =? "p")%char
              then match proto_of optarg with
                   | Some p => p
                   | None => proto c
                   end
              else proto c) /\
  ((x =? "p")%char = true -> proto_of optarg <> None) /\
  logs1 = (if (x =? "l")%char then logs ++ [optarg] else logs) /\
  ((x =? "l")%char = true -> fopen_ok optarg = true) /\
  parodd c1 = parodd c || (x =? "o")%char /\
  pareven c1 = pareven c || (x =? "e")%char /\
  ((x =? "o")%char = true -> pareven c = false) /\
  ((x =? "e")%char = true -> parodd c = false) /\
  seven_bits c1 = seven_bits c || (x =? "7")%char /\
  raw_kbd c1 = raw_kbd c || (x =? "r")%char.
Proof.
  unfold option_case, option_letters.
  destruct (Ascii.eqb_spec x "s") as [->|Hs].
  { destruct (speed_of sp optarg) eqn:E; [|discriminate].
    intros H; inversion H; subst; simpl.
    rewrite !orb_false_r. repeat split; auto 10; try discriminate. }
  destruct (Ascii.eqb_spec x "p") as [->|Hp].
  { destruct (proto_of optarg) eqn:E; [|discriminate].
    intros H; inversion H; subst; simpl.
    rewrite !orb_false_r. repeat split; auto 10; try discriminate. }
  destruct (Ascii.eqb_spec x "l") as [->|Hl].
  { destruct (fopen_ok optarg) eqn:E; [|discriminate].
    intros H; inversion H; subst; simpl.
    rewrite !orb_false_r. repeat split; auto 10; try discriminate. }
  destruct (Ascii.eqb_spec x "o") as [->|Ho].
  { destruct (pareven c) eqn:E; [discriminate|].
    intros H; inversion H; subst; simpl.
    rewrite !orb_false_r, ?orb_true_r.
    repeat split; auto 10; try discriminate. }
  destruct (Ascii.eqb_spec x "e") as [->|He].
  { destruct (parodd c) eqn:E; [discriminate|].
    intros H; inversion H; subst; simpl.
    rewrite !orb_false_r, ?orb_true_r.
    repeat split; auto 10; try discriminate. }
  destruct (Ascii.eqb_spec x "7") as [->|H7].
  { intros H; inversion H; subst; simpl.
    rewrite !orb_false_r, ?orb_true_r.
    repeat split; auto 10; try discriminate. }
  destruct (Ascii.eqb_spec x "r") as [->|Hr].
  { intros H; inversion H; subst; simpl.
    rewrite !orb_false_r, ?orb_true_r.
    repeat split; auto 10; try discriminate. }
  discriminate.
Qed.

Lemma getopt_loop_cons (x : ascii) (optarg : string)
      (rest : list (ascii * string)) (c c' : config)
      (logs logs' : list string) :
  getopt_loop sp fopen_ok ((x, optarg) :: rest) c logs = Accepted (c', logs') ->
  exists c1 logs1,
    option_case sp fopen_ok x optarg c logs = Accepted (c1, logs1) /\
    getopt_loop sp fopen_ok rest c1 logs1 = Accepted (c', logs').
Proof.
  cbn [getopt_loop].
  destruct (option_case sp fopen_ok x optarg c logs) as [[c1 logs1]|];
    [|discriminate].
  intros H. exists c1, logs1. auto.
Qed.

Lemma command_line_accepted (opts : list (ascii * string))
      (args : list string) (cl : cmdline) :
  command_line sp fopen_ok opts args = Accepted cl ->
  getopt_loop sp fopen_ok opts (initial_cfg sp) [] =
    Accepted (cl_cfg cl, cl_logs cl) /\
  (List.length args <= 1)%nat /\
  cl_tty cl = hd DEFAULT_TTY args.
Proof.
  unfold command_line.
  destruct (getopt_loop sp fopen_ok opts (initial_cfg sp) [])
    as [[c logs]|]; [|discriminate].
  destruct args as [|a [|b args]]; try discriminate;
    intros H; inversion H; subst; simpl; auto.
Qed.

Lemma getopt_loop_parity (opts : list (ascii * string)) :
  forall c logs c' logs',
    getopt_loop sp fopen_ok opts c logs = Accepted (c', logs') ->
    parodd c && pareven c = false ->
    parodd c' = parodd c || existsb (Ascii.eqb "o") (map fst opts) /\
    pareven c' = pareven c || existsb (Ascii.eqb "e") (map fst opts) /\
    parodd c' && pareven c' = false.
Proof.
  induction opts as [|[x a] rest IH]; intros c logs c' logs' H Hc.
  - inversion H; subst. simpl. rewrite !orb_false_r. auto.
  - apply getopt_loop_cons in H. destruct H as (c1 & logs1 & H1 & H2).
    apply option_case_accepted in H1.
    destruct H1 as (_ & _ & _ & _ & _ & _ & _ & Ho & He & Hoe & Heo & _).
    assert (Hc1 : parodd c1 && pareven c1 = false).
    { rewrite Ho, He.
      destruct (x =? "o")%char eqn:Eo, (x =? "e")%char eqn:Ee;
        rewrite ?orb_false_r, ?orb_true_r; simpl; auto.
      - apply Ascii.eqb_eq in Eo, Ee. congruence.
      - rewrite Heo by reflexivity. reflexivity. }
    destruct (IH _ _ _ _ H2 Hc1) as (Io & Ie & Ioe).
    cbn [map fst existsb].
    split; [|split; [|exact Ioe]].
    + rewrite Io, Ho, (Ascii.eqb_sym "o" x), orb_assoc. reflexivity.
    + rewrite Ie, He, (Ascii.eqb_sym "e" x), orb_assoc. reflexivity.
Qed.

(** X19.  The two parities exclude each other: on a command line that is
    taken, odd parity is set exactly when [-o] was given and even parity
    exactly when [-e] was given, and never both; a command line with both
    letters, in either order and whatever else it holds, is refused. *)
Theorem options_parity_exclusive (opts : list (ascii * string))
        (args : list string) (cl : cmdline) :
  command_line sp fopen_ok opts args = Accepted cl ->
  parodd (cl_cfg cl) = existsb (Ascii.eqb "o") (map fst opts) /\
  pareven (cl_cfg cl) = existsb (Ascii.eqb "e") (map fst opts) /\
  parodd (cl_cfg cl) && pareven (cl_cfg cl) = false /\
  ~ (In "o"%char (map fst opts) /\ In "e"%char (map fst opts)).
Proof.
  intros H. apply command_line_accepted in H. destruct H as (H & _).
  apply getopt_loop_parity in H; [|reflexivity].
  destruct H as (Ho & He & Hoe). simpl in Ho, He.
  split; [exact Ho|]. split; [exact He|]. split; [exact Hoe|].
  intros (Io & Ie).
  assert (E1 : existsb (Ascii.eqb "o") (map fst opts) = true).
  { apply existsb_exists. exists "o"%char. auto. }
  assert (E2 : existsb (Ascii.eqb "e") (map fst opts) = true).
  { apply existsb_exists. exists "e"%char. auto. }
  rewrite Ho, He, E1, E2 in Hoe. discriminate.
Qed.

Lemma getopt_loop_last (opts : list (ascii * string)) :
  forall c logs c' logs',
    getopt_loop sp fopen_ok opts c logs = Accepted (c', logs') ->
    match last_arg "s" opts with
    | Some a => speed_of sp a = Some (baud c')
    | None => baud c' = baud c
    end /\
    match last_arg "p" opts with
    | Some a => proto_of a = Some (proto c')
    | None => proto c' = proto c
    end.
Proof.
  induction opts as [|[x a] rest IH]; intros c logs c' logs' H.
  - inversion H; subst. simpl. auto.
  - apply getopt_loop_cons in H. destruct H as (c1 & logs1 & H1 & H2).
    apply option_case_accepted in H1.
    destruct H1 as (_ & Hb & Hbs & Hp & Hps & _).
    destruct (IH _ _ _ _ H2) as (Is & Ip).
    cbn [last_arg]. split.
    + destruct (last_arg "s" rest); [exact Is|].
      destruct (x =? "s")%char.
      * destruct (speed_of sp a); [congruence|].
        exfalso. apply Hbs; reflexivity.
      * congruence.
    + destruct (last_arg "p" rest); [exact Ip|].
      destruct (x =? "p")%char.
      * destruct (proto_of a); [congruence|].
        exfalso. apply Hps; reflexivity.
      * congruence.
Qed.

Lemma proto_of_known (a : string) (p : Z) :
  proto_of a = Some p -> In p protocols.
Proof.
  unfold proto_of, protocols.
  repeat match goal with
         | |- context [if ?b then _ else _] => destruct b
         end;
    intros H; inversion H; simpl; auto.
Qed.

(** X20.  On a command line that is taken, the speed is the one named by
    the last [-s], which is one of the seven the program knows, or B9600
    without any; the protocol is the one named by the last [-p], or zmodem
    without any, and always one of the four that [rx_xfer] and [tx_xfer]
    tell apart. *)
Theorem options_last_wins (opts : list (ascii * string))
        (args : list string) (cl : cmdline) :
  command_line sp fopen_ok opts args = Accepted cl ->
  match last_arg "s" opts with
  | Some a => speed_of sp a = Some (baud (cl_cfg cl))
  | None => baud (cl_cfg cl) = B9600 sp
  end /\
  match last_arg "p" opts with
  | Some a => proto_of a = Some (proto (cl_cfg cl))
  | None => proto (cl_cfg cl) = PROTO_RZ
  end /\
  In (proto (cl_cfg cl)) protocols.
Proof.
  intros H. apply command_line_accepted in H. destruct H as (H & _).
  apply getopt_loop_last in H. destruct H as (Hs & Hp). simpl in Hs, Hp.
  split; [exact Hs|]. split; [exact Hp|].
  destruct (last_arg "p" opts).
  - apply (proto_of_known s). exact Hp.
  - rewrite Hp. unfold protocols. simpl. auto.
Qed.

Lemma getopt_loop_sound (opts : list (ascii * string)) :
  forall c logs c' logs',
    getopt_loop sp fopen_ok opts c logs = Accepted (c', logs') ->
    Forall (fun x => In x option_letters) (map fst opts) /\
    Forall (fun a => speed_of sp a <> None) (all_args "s" opts) /\
    Forall (fun a => proto_of a <> None) (all_args "p" opts) /\
    Forall (fun a => fopen_ok a = true) (all_args "l" opts) /\
    logs' = logs ++ all_args "l" opts /\
    seven_bits c' = seven_bits c || existsb (Ascii.eqb "7") (map fst opts) /\
    raw_kbd c' = raw_kbd c || existsb (Ascii.eqb "r") (map fst opts).
Proof.
  induction opts as [|[x a] rest IH]; intros c logs c' logs' H.
  - inversion H; subst. simpl. rewrite app_nil_r, !orb_false_r.
    repeat split; constructor.
  - apply getopt_loop_cons in H. destruct H as (c1 & logs1 & H1 & H2).
    apply option_case_accepted in H1.
    destruct H1 as (Hx & _ & Hs & _ & Hp & Hl & Hlo & _ & _ & _ & _ &
                    H7 & Hr).
    destruct (IH _ _ _ _ H2) as (Ix & Is & Ip & Il & Ilog & I7 & Ir).
    cbn [map fst all_args existsb].
    rewrite I7, Ir, H7, Hr, (Ascii.eqb_sym "7" x), (Ascii.eqb_sym "r" x),
      !orb_assoc.
    split; [constructor; assumption|].
    split; [destruct (x =? "s")%char; auto|].
    split; [destruct (x =? "p")%char; auto|].
    split; [destruct (x =? "l")%char; auto|].
    split; [|auto].
    rewrite Ilog, Hl. destruct (x =? "l")%char; [|reflexivity].
    rewrite <- app_assoc. reflexivity.
Qed.

(** X21.  A command line is taken only if every option letter is one of
    [s p l e o 7 r], every [-s] names a speed and every [-p] a protocol the
    program knows, every [-l] names a file that could be opened, and at
    most one argument follows the options.  Every [-l] file has then been
    opened, in order, the last one being the log; the device is the
    argument that follows the options, or [/dev/ttyUSB0]; and the seven-bit
    and raw-keyboard flags are set exactly when [-7] and [-r] were given. *)
Theorem options_accepted_sound (opts : list (ascii * string))
        (args : list string) (cl : cmdline) :
  command_line sp fopen_ok opts args = Accepted cl ->
  Forall (fun x => In x option_letters) (map fst opts) /\
  Forall (fun a => speed_of sp a <> None) (all_args "s" opts) /\
  Forall (fun a => proto_of a <> None) (all_args "p" opts) /\
  Forall (fun a => fopen_ok a = true) (all_args "l" opts) /\
  cl_logs cl = all_args "l" opts /\
  (List.length args <= 1)%nat /\
  cl_tty cl = hd DEFAULT_TTY args /\
  seven_bits (cl_cfg cl) = existsb (Ascii.eqb "7") (map fst opts) /\
  raw_kbd (cl_cfg cl) = existsb (Ascii.eqb "r") (map fst opts).
Proof.
  intros H. apply command_line_accepted in H. destruct H as (H & Ha & Ht).
  apply getopt_loop_sound in H.
  destruct H as (Hx & Hs & Hp & Hl & Hlog & H7 & Hr).
  simpl in Hlog, H7, Hr. auto 10.
Qed.

End OptionFacts.

Section OptionsTaken.

Variable sp : speeds.
Variable fopen_ok : string -> bool.

Lemma all_args_cons (P : string -> Prop) (y x : ascii) (a : string)
      (rest : list (ascii * string)) :
  Forall P (all_args y ((x, a) :: rest)) ->
  ((x =? y)%char = true -> P a) /\ Forall P (all_args y rest).
Proof.
  cbn [all_args]. destruct (x =? y)%char; intros H.
  - inversion H; subst. auto.
  - split; [discriminate | exact H].
Qed.

Lemma option_case_taken (x : ascii) (optarg : string) (c : config)
      (logs : list string) :
  In x option_letters ->
  ((x =? "s")%char = true -> speed_of sp optarg <> None) ->
  ((x =? "p")%char = true -> proto_of optarg <> None) ->
  ((x =? "l")%char = true -> fopen_ok optarg = true) ->
  ((x =? "o")%char = true -> pareven c = false) ->
  ((x =? "e")%char = true -> parodd c = false) ->
  exists c1 logs1,
    option_case sp fopen_ok x optarg c logs = Accepted (c1, logs1).
Proof.
  intros Hx Hs Hp Hl Ho He. unfold option_case.
  unfold option_letters in Hx. cbn [In] in Hx.
  destruct Hx as [<-|[<-|[<-|[<-|[<-|[<-|[<-|[]]]]]]]]; simpl.
  - destruct (speed_of sp optarg); [eauto|]. exfalso. apply Hs; reflexivity.
  - destruct (proto_of optarg); [eauto|]. exfalso. apply Hp; reflexivity.
  - rewrite Hl by reflexivity. eauto.
  - rewrite He by reflexivity. eauto.
  - rewrite Ho by reflexivity. eauto.
  - eauto.
  - eauto.
Qed.

Lemma getopt_loop_taken (opts : list (ascii * string)) :
  forall c logs,
    Forall (fun x => In x option_letters) (map fst opts) ->
    Forall (fun a => speed_of sp a <> None) (all_args "s" opts) ->
    Forall (fun a => proto_of a <> None) (all_args "p" opts) ->
    Forall (fun a => fopen_ok a = true) (all_args "l" opts) ->
    (parodd c = true -> ~ In "e"%char (map fst opts)) ->
    (pareven c = true -> ~ In "o"%char (map fst opts)) ->
    ~ (In "o"%char (map fst opts) /\ In "e"%char (map fst opts)) ->
    exists c' logs', getopt_loop sp fopen_ok opts c logs = Accepted (c', logs').
Proof.
  induction opts as [|[x a] rest IH];
    intros c logs Hx Hs Hp Hl Hodd Heven Hboth.
  - simpl. eauto.
  - cbn [map fst] in *. inversion Hx as [|? ? Hx1 Hx2]; subst.
    apply all_args_cons in Hs, Hp, Hl.
    destruct Hs as (Hs1 & Hs2), Hp as (Hp1 & Hp2), Hl as (Hl1 & Hl2).
    assert (Ho : (x =? "o")%char = true -> pareven c = false).
    { intros E. apply Ascii.eqb_eq in E. subst x.
      destruct (pareven c); [|reflexivity].
      exfalso. apply Heven; simpl; auto. }
    assert (He : (x =? "e")%char = true -> parodd c = false).
    { intros E. apply Ascii.eqb_eq in E. subst x.
      destruct (parodd c); [|reflexivity].
      exfalso. apply Hodd; simpl; auto. }
    destruct (option_case_taken x a c logs Hx1 Hs1 Hp1 Hl1 Ho He)
      as (c1 & logs1 & H1).
    pose proof (option_case_accepted sp fopen_ok _ _ _ _ _ _ H1)
      as (_ & _ & _ & _ & _ & _ & _ & Eo & Ee & _).
    destruct (IH c1 logs1 Hx2 Hs2 Hp2 Hl2) as (c' & logs' & H2).
    + rewrite Eo. intros E Hin.
      apply orb_true_iff in E. destruct E as [E|E].
      * apply Hodd; simpl; auto.
      * apply Ascii.eqb_eq in E. subst x. apply Hboth; simpl; auto.
    + rewrite Ee. intros E Hin.
      apply orb_true_iff in E. destruct E as [E|E].
      * apply Heven; simpl; auto.
      * apply Ascii.eqb_eq in E. subst x. apply Hboth; simpl; auto.
    + intros (Io & Ie). apply Hboth; simpl; auto.
    + exists c', logs'. cbn [getopt_loop]. rewrite H1. exact H2.
Qed.

(** X22.  A command line is taken whenever every option letter is one of
    [s p l e o 7 r], every [-s] names a speed and every [-p] a protocol the
    program knows, every [-l] file can be opened, [-o] and [-e] do not both
    occur, and at most one argument follows the options: nothing else is
    refused. *)
Theorem options_accepted_complete (opts : list (ascii * string))
        (args : list string) :
  Forall (fun x => In x option_letters) (map fst opts) ->
  Forall (fun a => speed_of sp a <> None) (all_args "s" opts) ->
  Forall (fun a => proto_of a <> None) (all_args "p" opts) ->
  Forall (fun a => fopen_ok a = true) (all_args "l" opts) ->
  ~ (In "o"%char (map fst opts) /\ In "e"%char (map fst opts)) ->
  (List.length args <= 1)%nat ->
  exists cl, command_line sp fopen_ok opts args = Accepted cl.
Proof.
  intros Hx Hs Hp Hl Hboth Hargs.
  destruct (getopt_loop_taken opts (initial_cfg sp) [] Hx Hs Hp Hl)
    as (c & logs & H); try (simpl; discriminate); [exact Hboth|].
  unfold command_line. rewrite H.
  destruct args as [|a [|b args]]; [eauto | eauto | simpl in Hargs; lia].
Qed.

End OptionsTaken.

Lemma options_parity_exclusive_witness :
  exists cl,
    command_line linux_speeds (fun _ => true)
      [("o"%char, ""%string); ("7"%char, ""%string);
       ("o"%char, ""%string)] ["/dev/ttyS0"%string]
      = Accepted cl /\
    parodd (cl_cfg cl) = true /\ pareven (cl_cfg cl) = false.
Proof.
  eexists. split; [reflexivity|].
  destruct (options_parity_exclusive linux_speeds (fun _ => true)
              [("o"%char, ""%string); ("7"%char, ""%string);
               ("o"%char, ""%string)]
              ["/dev/ttyS0"%string] _ eq_refl) as (Ho & He & _).
  split; [exact Ho | exact He].
Defined.

Lemma options_last_wins_witness :
  exists cl,
    command_line linux_speeds (fun _ => true)
      [("s"%char, "300"%string); ("p"%char, "x"%string);
       ("s"%char, "115200"%string)] [] = Accepted cl /\
    speed_of linux_speeds "115200" = Some (baud (cl_cfg cl)) /\
    proto_of "x" = Some (proto (cl_cfg cl)).
Proof.
  eexists. split; [reflexivity|].
  destruct (options_last_wins linux_speeds (fun _ => true)
              [("s"%char, "300"%string); ("p"%char, "x"%string);
               ("s"%char, "115200"%string)]
              [] _ eq_refl) as (Hs & Hp & _).
  split; [exact Hs | exact Hp].
Defined.

Lemma options_accepted_sound_witness :
  exists cl,
    command_line linux_speeds (fun _ => true)
      [("l"%char, "a.log"%string); ("r"%char, ""%string);
       ("l"%char, "b.log"%string)] [] = Accepted cl /\
    cl_logs cl = ["a.log"; "b.log"]%string /\
    cl_tty cl = DEFAULT_TTY /\ raw_kbd (cl_cfg cl) = true.
Proof.
  eexists. split; [reflexivity|].
  destruct (options_accepted_sound linux_speeds (fun _ => true)
              [("l"%char, "a.log"%string); ("r"%char, ""%string);
               ("l"%char, "b.log"%string)]
              [] _ eq_refl) as (_ & _ & _ & _ & Hl & _ & Ht & _ & Hr).
  split; [exact Hl|]. split; [exact Ht | exact Hr].
Defined.

Lemma options_accepted_complete_witness :
  exists cl,
    command_line linux_speeds (fun _ => true)
      [("s"%char, "9600"%string); ("e"%char, ""%string);
       ("l"%char, "log"%string)] ["/dev/ttyS1"%string]
      = Accepted cl.
Proof.
  apply options_accepted_complete.
  - repeat constructor; simpl; tauto.
  - repeat constructor. vm_compute. discriminate.
  - constructor.
  - repeat constructor.
  - simpl. intros ([H|[H|[H|[]]]] & _); discriminate.
  - simpl. lia.
Defined.
